(** * user-credential-processor: the KDF record codec, the PBKDF2 and scrypt
      processors and the processor factory, embedded from
      [src/PBKDF2.js], [src/scrypt.js] and [src/index.js].

    Conventions of the embedding.
    - A Node [Buffer] is a [list byte].
    - A JavaScript string is a [string]: one 8-bit character per position.
      Hexadecimal strings are ASCII; the "binary" (latin1) rendering of a
      buffer has exactly one character per byte.
    - JavaScript numbers are restricted to integers ([Z]).
    - An options object is a finite map from property names to primitive
      values ([gmap string prim]); [Object.assign] is the right-biased
      merge of two such maps.
    - A promise is identified with the way it settles ([Outcome]). *)

From Stdlib Require Import ZArith Lia.
From Stdlib Require Import Strings.Byte Strings.Ascii Strings.String.
From stdpp Require Import base option list gmap strings.

Local Open Scope Z_scope.

(** ** JavaScript values and errors *)

(** Errors are kept apart by constructor: the two standard error classes
    Node throws from argument validation, and a plain [Error] with the
    message given at the [throw] statement. *)
Inductive Error :=
| TypeError (code : string)
| RangeError (code : string)
| PlainError (message : string).

(** Primitive values, as stored under the keys of an options object or of
    the factory's configuration mapping. *)
Inductive prim :=
| PUndefined
| PNull
| PBool (b : bool)
| PNum (n : Z)
| PStr (s : string).

(** Values that are passed as call arguments. [VFunction] stands for a
    callback; what the callback does is written at its call site. *)
Inductive value :=
| VPrim (p : prim)
| VBuffer (b : list byte)
| VObject (o : gmap string prim)
| VFunction.

(** JavaScript truthiness (the operand of [!!] and of [&&]). *)
Definition truthy_prim (p : prim) : bool :=
  match p with
  | PUndefined | PNull => false
  | PBool b => b
  | PNum n => negb (n =? 0)
  | PStr s => negb (String.eqb s EmptyString)
  end.

(** [options && typeof options === "object"]: [null] has type "object" but
    is falsy. A buffer is an object as well; its own keys are its indices,
    none of which is an option name, and they are left out here. *)
Definition as_options (v : value) : option (gmap string prim) :=
  match v with
  | VObject o => Some o
  | VBuffer _ => Some ∅
  | VPrim _ | VFunction => None
  end.

(** Property read [o.key]: an absent key reads as [undefined]. *)
Definition get (o : gmap string prim) (key : string) : prim :=
  default PUndefined (o !! key).

(** [Object.assign(Object.assign({}, base), over)]: every key of [over]
    replaces the key of [base]; stdpp's union is left-biased. *)
Definition Object_assign (base over : gmap string prim) : gmap string prim :=
  over ∪ base.

(** The state of the promise a method returns, once the method has run:
    still pending, fulfilled, rejected, or abandoned because an exception
    escaped from an asynchronous callback (the process reports an uncaught
    exception). *)
Inductive Outcome (A : Type) :=
| Pending
| Resolved (a : A)
| Rejected (e : Error)
| Crashed (e : Error).
Arguments Pending {A}.
Arguments Resolved {A} a.
Arguments Rejected {A} e.
Arguments Crashed {A} e.

(** A promise settles once: later calls of [resolve] or [reject] are
    ignored. *)
Definition settle {A} (st : Outcome A) (o : Outcome A) : Outcome A :=
  match st with
  | Pending => o
  | _ => st
  end.

(** ** Buffers *)

#[global] Instance byte_eq_decision : EqDecision byte := Byte.byte_eq_dec.

Module Buffer.

Definition byte_to_Z (b : byte) : Z := Z.of_N (Byte.to_N b).

Definition byte_of_Z (z : Z) : byte :=
  default "000"%byte (Byte.of_N (Z.to_N (z mod 256))).

(** [Buffer.alloc(size)]: zero-filled. *)
Definition alloc (size : nat) : list byte := replicate size "000"%byte.

(** [boundsError(offset, buf.length - 4)], raised by a four-byte access
    that does not fit: a buffer of fewer than four bytes has no valid
    offset at all and is reported as out of bounds, a longer one reports
    the offset as out of range. Both errors are [RangeError]s. *)
Definition boundsError (length : nat) : Error :=
  if (length <? 4)%nat then RangeError "ERR_BUFFER_OUT_OF_BOUNDS"
  else RangeError "ERR_OUT_OF_RANGE".

(** [buf.readUInt32BE(offset)]: throws when the first or the last of the
    four bytes is outside the buffer. *)
Definition readUInt32BE (buf : list byte) (offset : nat) : Error + Z :=
  match buf !! offset, buf !! (offset + 1)%nat,
        buf !! (offset + 2)%nat, buf !! (offset + 3)%nat with
  | Some first, Some b1, Some b2, Some last =>
      inr (byte_to_Z first * 2 ^ 24 + byte_to_Z b1 * 2 ^ 16
           + byte_to_Z b2 * 2 ^ 8 + byte_to_Z last)
  | _, _, _, _ => inl (boundsError (length buf))
  end.

(** The unary plus applied to the value to write. [None] is NaN; a
    string is read as NaN (numeric strings are not modelled: the
    processors reach a write only with a number, see
    [pbkdf2_value_number] and [scrypt_value_number]). *)
Definition ToNumber (p : prim) : option Z :=
  match p with
  | PNum n => Some n
  | PNull => Some 0
  | PBool b => Some (if b then 1 else 0)
  | PUndefined | PStr _ => None
  end.

(** [buf.writeUInt32BE(value, offset)]: throws when the value is outside
    the uint32 range or the four bytes do not fit; otherwise stores the
    bytes from the least significant one, at [offset + 3], down to
    [offset]. NaN passes the range test and is stored as zero. *)
Definition writeUInt32BE (buf : list byte) (value : prim) (offset : nat)
  : Error + list byte :=
  let v := default 0 (ToNumber value) in
  if negb ((0 <=? v) && (v <=? 4294967295)) then
    inl (RangeError "ERR_OUT_OF_RANGE")
  else if negb (offset + 3 <? length buf)%nat then
    inl (boundsError (length buf))
  else
    inr (<[offset := byte_of_Z (v / 2 ^ 24)]>
         (<[(offset + 1)%nat := byte_of_Z (v / 2 ^ 16)]>
          (<[(offset + 2)%nat := byte_of_Z (v / 2 ^ 8)]>
           (<[(offset + 3)%nat := byte_of_Z v]> buf)))).

(** [source.copy(target, targetStart)]: copies as many bytes as fit. *)
Definition copy (source target : list byte) (targetStart : nat)
  : list byte :=
  let nb := Nat.min (length source) (length target - targetStart) in
  take targetStart target ++ take nb source
    ++ drop (targetStart + nb) target.

(** [buf.slice(start, end)]: both ends are clamped to the buffer. *)
Definition slice (buf : list byte) (start stop : nat) : list byte :=
  take (stop - start) (drop start buf).

(** Lowercase hexadecimal digit of a value below 16. *)
Definition hex_char (n : N) : ascii :=
  if (n <? 10)%N then ascii_of_N (48 + n) else ascii_of_N (87 + n).

(** Value of a hexadecimal digit, in either letter case. *)
Definition hex_value (c : ascii) : option N :=
  let n := N_of_ascii c in
  if ((48 <=? n) && (n <=? 57))%N then Some (n - 48)%N
  else if ((97 <=? n) && (n <=? 102))%N then Some (n - 87)%N
  else if ((65 <=? n) && (n <=? 70))%N then Some (n - 55)%N
  else None.

(** [buf.toString("hex")]. *)
Fixpoint to_hex (buf : list byte) : string :=
  match buf with
  | [] => EmptyString
  | b :: rest =>
      String (hex_char (Byte.to_N b / 16))
        (String (hex_char (Byte.to_N b mod 16)) (to_hex rest))
  end.

(** [Buffer.from(s, "hex")]: decodes pairs of digits and stops, without
    an error, at the first pair that is not hexadecimal; a trailing
    single character is dropped. *)
Fixpoint from_hex (s : string) : list byte :=
  match s with
  | String c1 (String c2 rest) =>
      match hex_value c1, hex_value c2 with
      | Some h, Some l => byte_of_Z (Z.of_N (16 * h + l)) :: from_hex rest
      | _, _ => []
      end
  | _ => []
  end.

(** The string is made of hexadecimal digit pairs only. *)
Fixpoint is_hex (s : string) : bool :=
  match s with
  | EmptyString => true
  | String c1 (String c2 rest) =>
      match hex_value c1, hex_value c2 with
      | Some _, Some _ => is_hex rest
      | _, _ => false
      end
  | String _ EmptyString => false
  end.

(** [buf.toString("binary", start)]: one latin1 character per byte, from
    [start] to the end; empty when [start] is past the end. *)
Definition latin1 (buf : list byte) : string := string_of_list_byte buf.

Definition toString_binary (buf : list byte) (start : nat) : string :=
  latin1 (drop start buf).

(** [Buffer.from(s, "binary")], the inverse rendering. *)
Definition from_binary (s : string) : list byte := list_byte_of_string s.

End Buffer.

(** Synchronous code that may throw: [inl e] is a thrown error. The
    sequencing operator makes [x ← m; k] stop at the first throw. *)
#[global] Instance throw_bind : MBind (sum Error) :=
  λ A B f m, match m with inl e => inl e | inr a => f a end.

(** The argument list of a call: a missing argument reads as [undefined],
    supernumerary arguments are ignored by the callee. *)
Definition arg (args : list value) (i : nat) : value :=
  default (VPrim PUndefined) (args !! i).

(** ** The derivation primitives

    The key-derivation mathematics is not part of the repository; it is a
    parameter of the development, together with what depends on the
    platform. [digest_known] tells with which digests the platform can
    derive a key; [digest_named] tells which other names it recognises
    without being able to compute with them (a digest of a provider that
    is not loaded); [empty_key_refused] tells whether a PBKDF2 derivation
    of zero bytes is reported as an error (OpenSSL 3) or delivers an
    empty key; [scrypt_params_ok N r p maxmem] tells which scrypt
    parameter sets the platform accepts. *)
Record Kdf := {
  pbkdf2_key : list byte → list byte → Z → Z → string → list byte;
  scrypt_key : list byte → list byte → Z → Z → Z → Z → list byte;
  digest_known : string → bool;
  digest_named : string → bool;
  empty_key_refused : bool;
  scrypt_params_ok : Z → Z → Z → Z → bool
}.

(** A key-derivation function returns as many bytes as it is asked for. *)
Definition Kdf_lengths (K : Kdf) : Prop :=
  (∀ pw salt it len d,
      length (pbkdf2_key K pw salt it len d) = Z.to_nat len)
  ∧ (∀ pw salt len N r p,
      length (scrypt_key K pw salt len N r p) = Z.to_nat len).

(** ** Node's [crypto] module, as far as the processors call it *)
Module crypto.

(** The entropy source: it fails, or it hands out the bytes of a
    stream. Each call of [hash] is given its own source. *)
Inductive Entropy :=
| EntropyError (e : Error)
| EntropyStream (f : nat → byte).

(** An asynchronous primitive throws while it validates its arguments,
    or later calls back with an error or with a buffer. *)
Inductive Completion :=
| Throws (e : Error)
| CallbackError (e : Error)
| CallbackValue (b : list byte).

(** Passwords and salts: a string (its bytes) or a buffer. *)
Definition getArrayBufferOrView (v : value) : Error + list byte :=
  match v with
  | VPrim (PStr s) => inr (list_byte_of_string s)
  | VBuffer b => inr b
  | _ => inl (TypeError "ERR_INVALID_ARG_TYPE")
  end.

(** An integer argument with an inclusive range. *)
Definition validateInteger (v : value) (min max : Z) : Error + Z :=
  match v with
  | VPrim (PNum n) =>
      if (min <=? n) && (n <=? max) then inr n
      else inl (RangeError "ERR_OUT_OF_RANGE")
  | _ => inl (TypeError "ERR_INVALID_ARG_TYPE")
  end.

Definition validateInt32 (v : value) (min : Z) : Error + Z :=
  validateInteger v min 2147483647.

Definition validateUint32 (v : value) : Error + Z :=
  validateInteger v 0 4294967295.

Definition validateFunction (v : value) : Error + unit :=
  match v with
  | VFunction => inr tt
  | _ => inl (TypeError "ERR_INVALID_ARG_TYPE")
  end.

Definition validateString (v : value) : Error + string :=
  match v with
  | VPrim (PStr s) => inr s
  | _ => inl (TypeError "ERR_INVALID_ARG_TYPE")
  end.

Definition completion (r : Error + list byte) : Completion :=
  match r with
  | inl e => Throws e
  | inr b => CallbackValue b
  end.

(** [crypto.randomBytes(size, callback)]. *)
Definition randomBytes (entropy : Entropy) (args : list value)
  : Completion :=
  match validateInteger (arg args 0) 0 2147483647,
        validateFunction (arg args 1) with
  | inl e, _ | _, inl e => Throws e
  | inr size, inr _ =>
      match entropy with
      | EntropyError e => CallbackError e
      | EntropyStream f => CallbackValue (map f (seq 0 (Z.to_nat size)))
      end
  end.

(** The synchronous part of [crypto.pbkdf2]: the arguments are
    validated in Node's order, digest first, the callback last. *)
Definition pbkdf2_check (args : list value)
  : Error + (string * list byte * list byte * Z * Z) :=
  d ← validateString (arg args 4);
  pw ← getArrayBufferOrView (arg args 0);
  salt ← getArrayBufferOrView (arg args 1);
  iterations ← validateInt32 (arg args 2) 1;
  keylen ← validateInt32 (arg args 3) 0;
  _ ← validateFunction (arg args 5);
  inr (d, pw, salt, iterations, keylen).

(** A derivation of zero bytes, which delivers none, on a platform that
    reports it as an error. *)
Definition empty_key_error (K : Kdf) (keylen : Z) (key : list byte) : bool :=
  empty_key_refused K && (keylen =? 0) && bool_decide (key = []).

(** [crypto.pbkdf2(password, salt, iterations, keylen, digest,
    callback)]. After the validation, a digest name that the platform
    does not recognise makes the call throw; a failure of the derivation
    itself (a recognised digest the platform cannot compute with, a
    refused empty key) is passed to the callback as an error. *)
Definition pbkdf2 (K : Kdf) (args : list value) : Completion :=
  match pbkdf2_check args with
  | inl e => Throws e
  | inr (d, pw, salt, iterations, keylen) =>
      if digest_known K d then
        let key := pbkdf2_key K pw salt iterations keylen d in
        if empty_key_error K keylen key
        then CallbackError (PlainError "ERR_CRYPTO_OPERATION_FAILED")
        else CallbackValue key
      else if digest_named K d
      then CallbackError (PlainError "ERR_CRYPTO_OPERATION_FAILED")
      else Throws (TypeError "ERR_CRYPTO_INVALID_DIGEST")
  end.

(** scrypt's built-in parameters [{ N, r, p, maxmem }]. *)
Record ScryptParams := { N : Z; r : Z; p : Z; maxmem : Z }.

Definition scrypt_defaults : ScryptParams :=
  {| N := 16384; r := 8; p := 1; maxmem := 32 * 1024 * 1024 |}.

(** One parameter of the options object, under its short or its long
    name: both at once is an error, zero selects the built-in value. *)
Definition scrypt_option (o : gmap string prim) (short long : string)
    (dflt : Z) : Error + Z :=
  v ← match get o short, get o long with
      | PUndefined, PUndefined => inr dflt
      | n, PUndefined => validateUint32 (VPrim n)
      | PUndefined, n => validateUint32 (VPrim n)
      | _, _ => inl (TypeError "ERR_INCOMPATIBLE_OPTION_PAIR")
      end;
  inr (if v =? 0 then dflt else v).

Definition scrypt_maxmem (o : gmap string prim) : Error + Z :=
  v ← match get o "maxmem" with
      | PUndefined => inr (maxmem scrypt_defaults)
      | n => validateInteger (VPrim n) 0 9007199254740991
      end;
  inr (if v =? 0 then maxmem scrypt_defaults else v).

(** The options that a call passes: a plain object is read key by key;
    any other truthy value has none of the keys; a falsy value, like the
    absent argument, selects the built-in parameters. *)
Definition scrypt_params (options : option value) : Error + ScryptParams :=
  match options with
  | Some (VObject o) =>
      n ← scrypt_option o "N" "cost" (N scrypt_defaults);
      r ← scrypt_option o "r" "blockSize" (r scrypt_defaults);
      p ← scrypt_option o "p" "parallelization" (p scrypt_defaults);
      m ← scrypt_maxmem o;
      inr {| N := n; r := r; p := p; maxmem := m |}
  | _ => inr scrypt_defaults
  end.

(** [crypto.scrypt(password, salt, keylen[, options], callback)], declared
    as [scrypt(password, salt, keylen, options, callback = defaults)]:
    when the fifth argument is [undefined] the fourth one is taken to be
    the callback and the built-in parameters are used. The callback is
    validated after the other arguments, the parameter set last. *)
Definition scrypt (K : Kdf) (args : list value) : Completion :=
  let '(options, callback) :=
    match arg args 4 with
    | VPrim PUndefined => (None, arg args 3)
    | cb => (Some (arg args 3), cb)
    end in
  completion (
    pw ← getArrayBufferOrView (arg args 0);
    salt ← getArrayBufferOrView (arg args 1);
    keylen ← validateInt32 (arg args 2) 0;
    ps ← scrypt_params options;
    _ ← validateFunction callback;
    if scrypt_params_ok K (N ps) (r ps) (p ps) (maxmem ps)
    then inr (scrypt_key K pw salt keylen (N ps) (r ps) (p ps))
    else inl (RangeError "ERR_CRYPTO_INVALID_SCRYPT_PARAMS")).

End crypto.

(** ** The encoded record

    The statements that build the record in [hash] and those that take it
    apart in [compare] are the same in [PBKDF2.js] and in [scrypt.js]; the
    two files differ in the option written at offset 4. *)
Module Codec.

(** [hash], inside the callback of the derivation: the buffer is
    allocated, the salt length and the cost value are written, salt and
    key are copied in, and the buffer is rendered in hexadecimal. *)
Definition combine (salt hash : list byte) (cost : prim) : Error + string :=
  let combined := Buffer.alloc (length hash + length salt + 8) in
  combined ← Buffer.writeUInt32BE combined
               (PNum (Z.of_nat (length salt))) 0;
  combined ← Buffer.writeUInt32BE combined cost 4;
  let combined := Buffer.copy salt combined 8 in
  let combined := Buffer.copy hash combined (length salt + 8) in
  inr (Buffer.to_hex combined).

(** What [compare] reads from the stored string before it re-derives. *)
Record Decoded := {
  saltBytes : Z;
  salt : list byte;
  hashBytes : Z;
  iterations : Z;
  hash : string
}.

Definition decode (stored : string) : Error + Decoded :=
  let buffer := Buffer.from_hex stored in
  saltBytes ← Buffer.readUInt32BE buffer 0;
  let salt := Buffer.slice buffer 8 (Z.to_nat (saltBytes + 8)) in
  let hashBytes := Z.of_nat (length buffer) - saltBytes - 8 in
  iterations ← Buffer.readUInt32BE buffer 4;
  let hash := Buffer.toString_binary buffer (Z.to_nat (saltBytes + 8)) in
  inr {| saltBytes := saltBytes; salt := salt; hashBytes := hashBytes;
         iterations := iterations; hash := hash |}.

(** The four bytes of a uint32, most significant first. *)
Definition uint32be (v : Z) : list byte :=
  [Buffer.byte_of_Z (v / 2 ^ 24); Buffer.byte_of_Z (v / 2 ^ 16);
   Buffer.byte_of_Z (v / 2 ^ 8); Buffer.byte_of_Z v].

(** The record as the specification writes it:
    [hex(uint32be(len S) || uint32be(C) || S || K)]. *)
Definition encoded_record (S : list byte) (C : Z) (K : list byte) : string :=
  Buffer.to_hex (uint32be (Z.of_nat (length S)) ++ uint32be C ++ S ++ K).

End Codec.

(** ** [src/PBKDF2.js] *)
Module PBKDF2.

Definition defaults : gmap string prim :=
  {[ "hashBytes" := PNum 32; "saltBytes" := PNum 16;
     "digest" := PStr "whirlpool"; "iterations" := PNum 777777 ]}.

(** An instance holds [this.options]. *)
Record Processor := { options : gmap string prim }.

Definition constructor (opts : value) : Processor :=
  match as_options opts with
  | Some o => {| options := Object_assign defaults o |}
  | None => {| options := defaults |}
  end.

(** The first statements of [hash]: the options the call works with. *)
Definition temporalOptions (this : Processor) (opts : value)
  : gmap string prim :=
  match as_options opts with
  | Some o => Object_assign defaults o
  | None => options this
  end.

(** [hash(password, options)]. Neither [catch] block returns: after a
    failed salt generation the promise is rejected and the derivation is
    still attempted, with [salt] undefined. The derivation callback does
    not return after [reject(e)] either and then reads [hash.length] of
    [undefined]. *)
Definition hash (K : Kdf) (this : Processor) (password : string)
    (opts : value) (entropy : crypto.Entropy) : Outcome string :=
  let temporalOptions := temporalOptions this opts in
  let generated :=
    crypto.randomBytes entropy
      [VPrim (get temporalOptions "saltBytes"); VFunction] in
  let salt :=
    match generated with
    | crypto.CallbackValue s => VBuffer s
    | _ => VPrim PUndefined
    end in
  let st :=
    match generated with
    | crypto.CallbackValue _ => Pending
    | crypto.Throws e | crypto.CallbackError e => settle Pending (Rejected e)
    end in
  match crypto.pbkdf2 K
          [VPrim (PStr password); salt;
           VPrim (get temporalOptions "iterations");
           VPrim (get temporalOptions "hashBytes");
           VPrim (get temporalOptions "digest"); VFunction] with
  | crypto.Throws e => settle st (Rejected e)
  | crypto.CallbackError e =>
      Crashed (TypeError "Cannot read properties of undefined")
  | crypto.CallbackValue hash =>
      match salt with
      | VBuffer s =>
          match Codec.combine s hash (get temporalOptions "iterations") with
          | inr hex => settle st (Resolved hex)
          | inl e => Crashed e
          end
      | _ => Crashed (TypeError "Cannot read properties of undefined")
      end
  end.

(** The argument list of the re-derivation call in [compare]. Reading
    the record may throw, inside the promise executor. *)
Definition compare_call (incoming stored : string)
  : Error + (Codec.Decoded * list value) :=
  d ← Codec.decode stored;
  let digest := get defaults "digest" in
  inr (d, [VPrim (PStr incoming); VBuffer (Codec.salt d);
           VPrim (PNum (Codec.iterations d));
           VPrim (PNum (Codec.hashBytes d)); VPrim digest; VFunction]).

(** [compare(incoming, stored)]. The callback does not return after
    [reject(e)] and then reads [verify.toString] of [undefined]. *)
Definition compare (K : Kdf) (incoming stored : string) : Outcome bool :=
  match compare_call incoming stored with
  | inl e => Rejected e
  | inr (d, args) =>
      match crypto.pbkdf2 K args with
      | crypto.Throws e => Rejected e
      | crypto.CallbackError e =>
          Crashed (TypeError "Cannot read properties of undefined")
      | crypto.CallbackValue verify =>
          Resolved (String.eqb (Buffer.latin1 verify) (Codec.hash d))
      end
  end.

End PBKDF2.

(** ** [src/scrypt.js] *)
Module Scrypt.

Definition defaults : gmap string prim :=
  {[ "keyLength" := PNum 64; "saltBytes" := PNum 16;
     "cost" := PNum 16384; "blockSize" := PNum 8;
     "parallelization" := PNum 1; "maxmem" := PNum (32 * 1024 * 1024) ]}.

Record Processor := { options : gmap string prim }.

Definition constructor (opts : value) : Processor :=
  match as_options opts with
  | Some o => {| options := Object_assign defaults o |}
  | None => {| options := defaults |}
  end.

Definition temporalOptions (this : Processor) (opts : value)
  : gmap string prim :=
  match as_options opts with
  | Some o => Object_assign defaults o
  | None => options this
  end.

(** The argument list of the derivation call in [hash]. *)
Definition hash_call (temporalOptions : gmap string prim)
    (password : string) (salt : list byte) : list value :=
  [VPrim (PStr password); VBuffer salt;
   VPrim (get temporalOptions "keyLength");
   VObject {[ "cost" := get temporalOptions "cost";
              "blockSize" := get temporalOptions "blockSize";
              "parallelization" := get temporalOptions "parallelization" ]};
   VFunction].

(** [hash(password, options)]: here every failure path returns. *)
Definition hash (K : Kdf) (this : Processor) (password : string)
    (opts : value) (entropy : crypto.Entropy) : Outcome string :=
  let temporalOptions := temporalOptions this opts in
  match crypto.randomBytes entropy
          [VPrim (get temporalOptions "saltBytes"); VFunction] with
  | crypto.Throws e | crypto.CallbackError e => Rejected e
  | crypto.CallbackValue salt =>
      match crypto.scrypt K (hash_call temporalOptions password salt) with
      | crypto.Throws e | crypto.CallbackError e => Rejected e
      | crypto.CallbackValue hash =>
          match Codec.combine salt hash (get temporalOptions "keyLength") with
          | inr hex => Resolved hex
          | inl e => Crashed e
          end
      end
  end.

(** The argument list of the re-derivation call in [compare]: six
    arguments, as for PBKDF2; [defaults] has no [digest] key here. *)
Definition compare_call (incoming stored : string)
  : Error + (Codec.Decoded * list value) :=
  d ← Codec.decode stored;
  let digest := get defaults "digest" in
  inr (d, [VPrim (PStr incoming); VBuffer (Codec.salt d);
           VPrim (PNum (Codec.iterations d));
           VPrim (PNum (Codec.hashBytes d)); VPrim digest; VFunction]).

(** [compare(incoming, stored)]. *)
Definition compare (K : Kdf) (incoming stored : string) : Outcome bool :=
  match compare_call incoming stored with
  | inl e => Rejected e
  | inr (d, args) =>
      match crypto.scrypt K args with
      | crypto.Throws e | crypto.CallbackError e => Rejected e
      | crypto.CallbackValue verify =>
          Resolved (String.eqb (Buffer.latin1 verify) (Codec.hash d))
      end
  end.

End Scrypt.

(** ** [src/index.js] *)
Module Factory.

(** The four processor classes the factory can [require]. *)
Inductive Backend :=
| Argon2Processor
| BcryptProcessor
| PBKDF2Processor
| ScryptProcessor.

(** What the caller holds: the class [UserCredentialProcessor extends
    parent {}] that the factory returns, or an instance that [new] made
    from such a class with the given constructor argument. *)
Inductive object :=
| Class (parent : Backend)
| Instance (parent : Backend) (opts : value).

(** The configuration object, as the list of its own properties in
    enumeration order. *)
Definition Config := list (string * value).

Definition Object_keys (o : Config) : list string := map fst o.

(** [o[key]]. *)
Definition read (o : Config) (key : string) : value :=
  default (VPrim PUndefined)
    (snd <$> List.find (λ kv, String.eqb (fst kv) key) o).

Definition truthy (v : value) : bool :=
  match v with
  | VPrim p => truthy_prim p
  | VBuffer _ | VObject _ | VFunction => true
  end.

(** [String.prototype.toLowerCase], on ASCII letters. *)
Definition lower (c : ascii) : ascii :=
  let n := N_of_ascii c in
  if ((65 <=? n) && (n <=? 90))%N then ascii_of_N (n + 32) else c.

Fixpoint toLowerCase (s : string) : string :=
  match s with
  | EmptyString => EmptyString
  | String c rest => String (lower c) (toLowerCase rest)
  end.

(** The keys whose flag is truthy. *)
Definition enabled (hashingAlgorithm : Config) : list string :=
  List.filter (λ key, truthy (read hashingAlgorithm key))
    (Object_keys hashingAlgorithm).

(** The [switch] over the normalised name. *)
Definition select (normalizedAlgorithm : string) : Error + object :=
  if String.eqb normalizedAlgorithm "argon2" then
    inr (Class Argon2Processor)
  else if String.eqb normalizedAlgorithm "bcrypt" then
    inr (Class BcryptProcessor)
  else if String.eqb normalizedAlgorithm "pbkdf2" then
    inr (Class PBKDF2Processor)
  else if String.eqb normalizedAlgorithm "scrypt" then
    inr (Class ScryptProcessor)
  else inl (PlainError "UserCredentialProcessor: Unknown algorithm").

(** [module.exports]. With no key enabled, [algorithm[0]] is
    [undefined] and reading its [toLowerCase] throws a [TypeError]. *)
Definition exports (hashingAlgorithm : Config) : Error + object :=
  let algorithm := enabled hashingAlgorithm in
  if (1 <? length algorithm)%nat then
    inl (PlainError
           "UserCredentialProcessor: More than one algorithm enabled. ")
  else
    match algorithm !! 0%nat with
    | None => inl (TypeError "Cannot read properties of undefined")
    | Some name => select (toLowerCase name)
    end.

(** The errors the factory raises on purpose, with [throw new Error]. *)
Definition is_configuration_error (e : Error) : bool :=
  match e with
  | PlainError _ => true
  | TypeError _ | RangeError _ => false
  end.

(** [hash] and [compare] are prototype methods of the four classes: an
    instance has them, the class object itself does not. *)
Definition has_method (o : object) (name : string) : bool :=
  match o with
  | Class _ => false
  | Instance _ _ => String.eqb name "hash" || String.eqb name "compare"
  end.

(** [new o(opts)]: only a class can be constructed. *)
Definition new (o : object) (opts : value) : Error + object :=
  match o with
  | Class parent => inr (Instance parent opts)
  | Instance _ _ => inl (TypeError "not a constructor")
  end.

Definition is_instance (o : object) : bool :=
  match o with
  | Class _ => false
  | Instance _ _ => true
  end.

Definition backend_of (o : object) : Backend :=
  match o with
  | Class parent | Instance parent _ => parent
  end.

(** The [case] label of each backend in the [switch]. *)
Definition label (b : Backend) : string :=
  match b with
  | Argon2Processor => "argon2"
  | BcryptProcessor => "bcrypt"
  | PBKDF2Processor => "pbkdf2"
  | ScryptProcessor => "scrypt"
  end.

End Factory.

(** ** A small concrete set of primitives

    Used to run the processors on concrete inputs. The keys of the two
    functions depend on every argument the real primitives depend on. *)
Module Sample.

Definition mix (pw salt : list byte) (tag : Z) (i : nat) : byte :=
  Buffer.byte_of_Z
    (Z.of_nat (length pw) + 3 * Z.of_nat (length salt)
     + default 0 (Buffer.byte_to_Z <$> pw !! 0%nat)
     + default 0 (Buffer.byte_to_Z <$> salt !! 0%nat)
     + tag + Z.of_nat i).

Definition kdf : Kdf :=
  {| pbkdf2_key pw salt it len d :=
       map (mix pw salt (it + Z.of_nat (String.length d)))
         (seq 0 (Z.to_nat len));
     scrypt_key pw salt len N r p :=
       map (mix pw salt (N + 2 * r + 5 * p)) (seq 0 (Z.to_nat len));
     digest_known d :=
       String.eqb d "whirlpool" || String.eqb d "sha512"
       || String.eqb d "sha256";
     digest_named d := String.eqb d "md4";
     empty_key_refused := true;
     scrypt_params_ok N r p maxmem :=
       (1 <? N) && (Z.land N (N - 1) =? 0) && (128 * N * r <=? maxmem) |}.

(** The same primitives on a platform that delivers empty keys. *)
Definition lenient : Kdf :=
  {| pbkdf2_key := pbkdf2_key kdf;
     scrypt_key := scrypt_key kdf;
     digest_known := digest_known kdf;
     digest_named := digest_named kdf;
     empty_key_refused := false;
     scrypt_params_ok := scrypt_params_ok kdf |}.

(** An entropy source that counts upwards from [start]. *)
Definition counting (start : Z) : crypto.Entropy :=
  crypto.EntropyStream (λ i, Buffer.byte_of_Z (start + Z.of_nat i)).

End Sample.

(** ** [src/bcrypt.js]

    The bcrypt algorithm belongs to an external library, a parameter
    here: [bcrypt_hash password rounds] and [bcrypt_compare incoming
    stored] are the promises of its two functions. *)
Module Bcrypt.

Record Library := {
  bcrypt_hash : string → prim → Outcome string;
  bcrypt_compare : string → string → Outcome bool
}.

(** [!!options && typeof options === "object" &&
    options.hasOwnProperty("saltRounds")]: an own key counts whatever its
    value is. *)
Definition with_saltRounds (opts : value) : option (gmap string prim) :=
  match opts with
  | VObject o => if decide (is_Some (o !! "saltRounds")) then Some o else None
  | VPrim _ | VBuffer _ | VFunction => None
  end.

Record Processor := { options : gmap string prim }.

Definition constructor (opts : value) : Processor :=
  match with_saltRounds opts with
  | Some o => {| options := o |}
  | None => {| options := {[ "saltRounds" := PNum 10 ]} |}
  end.

Definition hash (L : Library) (this : Processor) (password : string)
    (opts : value) : Outcome string :=
  let temporalOptions :=
    match with_saltRounds opts with
    | Some o => o
    | None => options this
    end in
  bcrypt_hash L password (get temporalOptions "saltRounds").

Definition compare (L : Library) (incoming stored : string) : Outcome bool :=
  bcrypt_compare L incoming stored.

End Bcrypt.

(** ** [src/argon2.js]

    The Argon2 algorithm belongs to an external library as well:
    [argon2_defaults] is its exported [defaults] object. *)
Module Argon2.

Record Library := {
  argon2_defaults : gmap string prim;
  argon2_hash : string → value → Outcome string;
  argon2_verify : string → string → Outcome bool
}.

(** [options && typeof options === "object"]. *)
Definition is_object (v : value) : bool :=
  match v with
  | VObject _ | VBuffer _ => true
  | VPrim _ | VFunction => false
  end.

(** [this.options] is the object that was passed, not a copy of it. *)
Record Processor := { options : value }.

Definition constructor (L : Library) (opts : value) : Processor :=
  if is_object opts then {| options := opts |}
  else {| options := VObject (argon2_defaults L) |}.

Definition hash (L : Library) (this : Processor) (password : string)
    (opts : value) : Outcome string :=
  let temporalOptions := if is_object opts then opts else options this in
  argon2_hash L password temporalOptions.

(** [compare(incoming, stored, options)]: the promise of
    [argon2.verify(stored, incoming)] is awaited; its value is passed to
    [resolve], its error to [reject]. The third parameter is only read in
    the block that is commented out. *)
Definition compare (L : Library) (incoming stored : string) (opts : value)
  : Outcome bool :=
  match argon2_verify L stored incoming with
  | Resolved result => settle Pending (Resolved result)
  | Rejected e => settle Pending (Rejected e)
  | Pending => Pending
  | Crashed e => Crashed e
  end.

End Argon2.

(** ** Method calls on what the factory returns

    [class UserCredentialProcessor extends parent {}] has no member of
    its own: [new] runs the constructor of the parent on the given
    argument, and [hash] and [compare] of an instance are the methods of
    the parent. Calling a method that the receiver does not have throws a
    [TypeError]. *)
Module Call.

Record Libraries := {
  kdf : Kdf;
  bcrypt : Bcrypt.Library;
  argon2 : Argon2.Library
}.

Definition hash (L : Libraries) (o : Factory.object) (password : string)
    (opts : value) (entropy : crypto.Entropy) : Error + Outcome string :=
  match o with
  | Factory.Class _ => inl (TypeError "hash is not a function")
  | Factory.Instance Factory.Argon2Processor c =>
      inr (Argon2.hash (argon2 L) (Argon2.constructor (argon2 L) c)
             password opts)
  | Factory.Instance Factory.BcryptProcessor c =>
      inr (Bcrypt.hash (bcrypt L) (Bcrypt.constructor c) password opts)
  | Factory.Instance Factory.PBKDF2Processor c =>
      inr (PBKDF2.hash (kdf L) (PBKDF2.constructor c) password opts entropy)
  | Factory.Instance Factory.ScryptProcessor c =>
      inr (Scrypt.hash (kdf L) (Scrypt.constructor c) password opts entropy)
  end.

Definition compare (L : Libraries) (o : Factory.object)
    (incoming stored : string) : Error + Outcome bool :=
  match o with
  | Factory.Class _ => inl (TypeError "compare is not a function")
  | Factory.Instance Factory.Argon2Processor _ =>
      inr (Argon2.compare (argon2 L) incoming stored (VPrim PUndefined))
  | Factory.Instance Factory.BcryptProcessor _ =>
      inr (Bcrypt.compare (bcrypt L) incoming stored)
  | Factory.Instance Factory.PBKDF2Processor _ =>
      inr (PBKDF2.compare (kdf L) incoming stored)
  | Factory.Instance Factory.ScryptProcessor _ =>
      inr (Scrypt.compare (kdf L) incoming stored)
  end.

(** The whole path of a caller: the factory, [new] with a constructor
    argument, then one method call. *)
Definition make (hashingAlgorithm : Factory.Config) (ctor : value)
  : Error + Factory.object :=
  cls ← Factory.exports hashingAlgorithm;
  Factory.new cls ctor.

End Call.

(** Sample external libraries, to run the bcrypt and Argon2 processors
    and the method calls on concrete inputs. *)
Module SampleLibs.

Definition bcrypt : Bcrypt.Library :=
  {| Bcrypt.bcrypt_hash pw rounds :=
       match rounds with
       | PNum n =>
           if (4 <=? n) && (n <=? 31)
           then Resolved (String (ascii_of_N (Z.to_N n)) pw)
           else Rejected (PlainError "rounds out of range")
       | _ => Rejected (PlainError "data and salt arguments required")
       end;
     Bcrypt.bcrypt_compare incoming stored :=
       match stored with
       | String _ pw => Resolved (String.eqb incoming pw)
       | EmptyString => Resolved false
       end |}.

Definition argon2 : Argon2.Library :=
  {| Argon2.argon2_defaults := {[ "timeCost" := PNum 3 ]};
     Argon2.argon2_hash pw opts := Resolved ("$argon2$" +:+ pw);
     Argon2.argon2_verify stored incoming :=
       Resolved (String.eqb stored ("$argon2$" +:+ incoming)) |}.

Definition libraries : Call.Libraries :=
  {| Call.kdf := Sample.kdf; Call.bcrypt := bcrypt; Call.argon2 := argon2 |}.

End SampleLibs.

(** * Properties *)

(** ** Bytes, hexadecimal and latin1 renderings *)
Section BufferFacts.

Import Buffer.

Lemma byte_to_Z_range b : 0 <= byte_to_Z b < 256.
Proof.
  unfold byte_to_Z. pose proof (Byte.to_N_bounded b). lia.
Qed.

Lemma byte_of_to_Z b : byte_of_Z (byte_to_Z b) = b.
Proof.
  unfold byte_of_Z, byte_to_Z.
  rewrite Z.mod_small by (pose proof (Byte.to_N_bounded b); lia).
  rewrite N2Z.id, Byte.of_to_N. reflexivity.
Qed.

Lemma byte_to_of_Z z : byte_to_Z (byte_of_Z z) = z mod 256.
Proof.
  unfold byte_of_Z, byte_to_Z.
  pose proof (Z.mod_pos_bound z 256 ltac:(lia)) as Hr.
  destruct (Byte.of_N (Z.to_N (z mod 256))) as [b|] eqn:E.
  - apply Byte.to_of_N in E. simpl. rewrite E. lia.
  - apply Byte.of_N_None_iff in E. lia.
Qed.

Lemma hex_pair b :
  hex_value (hex_char (Byte.to_N b / 16)) = Some (Byte.to_N b / 16)%N
  ∧ hex_value (hex_char (Byte.to_N b mod 16)) = Some (Byte.to_N b mod 16)%N.
Proof. destruct b; vm_compute; split; reflexivity. Qed.

Lemma hex_join b :
  byte_of_Z (Z.of_N (16 * (Byte.to_N b / 16) + Byte.to_N b mod 16)) = b.
Proof.
  rewrite <- (N.div_mod (Byte.to_N b) 16) by lia. apply byte_of_to_Z.
Qed.

Lemma append_String c s t : String c s +:+ t = String c (s +:+ t).
Proof. reflexivity. Qed.

(** Decoding the hexadecimal rendering of a buffer gives the buffer
    back, whatever follows it in the string. *)
Lemma from_hex_app buf s :
  from_hex (to_hex buf +:+ s) = buf ++ from_hex s.
Proof.
  induction buf as [|b buf IH]; [reflexivity|].
  cbn [to_hex]. rewrite !append_String. cbn [from_hex app].
  destruct (hex_pair b) as [-> ->].
  rewrite hex_join, IH. reflexivity.
Qed.

Lemma string_app_empty s : s +:+ EmptyString = s.
Proof.
  induction s as [|c s IH]; [reflexivity|].
  rewrite append_String, IH. reflexivity.
Qed.

Lemma from_hex_to_hex buf : from_hex (to_hex buf) = buf.
Proof.
  rewrite <- (string_app_empty (to_hex buf)), from_hex_app.
  cbn. apply app_nil_r.
Qed.

Lemma is_hex_to_hex buf : is_hex (to_hex buf) = true.
Proof.
  induction buf as [|b buf IH]; [reflexivity|].
  cbn [to_hex is_hex]. destruct (hex_pair b) as [-> ->]. exact IH.
Qed.

Lemma to_hex_length buf : String.length (to_hex buf) = (2 * length buf)%nat.
Proof. induction buf as [|b buf IH]; cbn; [|rewrite IH]; lia. Qed.

Lemma from_binary_latin1 buf : from_binary (latin1 buf) = buf.
Proof. apply list_byte_of_string_of_list_byte. Qed.

Lemma latin1_inj a b : latin1 a = latin1 b → a = b.
Proof.
  intros H. rewrite <- (from_binary_latin1 a), <- (from_binary_latin1 b).
  now rewrite H.
Qed.

Lemma latin1_eqb a b :
  String.eqb (latin1 a) (latin1 b) = bool_decide (a = b).
Proof.
  destruct (String.eqb_spec (latin1 a) (latin1 b)) as [E|N].
  - apply latin1_inj in E. now rewrite bool_decide_eq_true_2.
  - rewrite bool_decide_eq_false_2; [reflexivity|]. intros ->. now apply N.
Qed.

(** The four bytes written for a uint32 read back as the same number. *)
Lemma uint32_digits v :
  0 <= v < 2 ^ 32 →
  (v / 2 ^ 24) mod 256 * 2 ^ 24 + (v / 2 ^ 16) mod 256 * 2 ^ 16
    + (v / 2 ^ 8) mod 256 * 2 ^ 8 + v mod 256 = v.
Proof.
  intros Hv.
  rewrite (Z.mod_small (v / 2 ^ 24)) by
    (split; [apply Z.div_pos; lia | apply Z.div_lt_upper_bound; lia]).
  change (2 ^ 24) with (2 ^ 8 * (2 ^ 8 * 2 ^ 8)).
  change (2 ^ 16) with (2 ^ 8 * 2 ^ 8).
  rewrite <- !Z.div_div by lia.
  change (2 ^ 8) with 256.
  pose proof (Z.div_mod v 256 ltac:(lia)).
  pose proof (Z.div_mod (v / 256) 256 ltac:(lia)).
  pose proof (Z.div_mod (v / 256 / 256) 256 ltac:(lia)).
  lia.
Qed.

Lemma readUInt32BE_0 b0 b1 b2 b3 rest :
  readUInt32BE (b0 :: b1 :: b2 :: b3 :: rest) 0
  = inr (byte_to_Z b0 * 2 ^ 24 + byte_to_Z b1 * 2 ^ 16
         + byte_to_Z b2 * 2 ^ 8 + byte_to_Z b3).
Proof. reflexivity. Qed.

Lemma readUInt32BE_4 a0 a1 a2 a3 b0 b1 b2 b3 rest :
  readUInt32BE (a0 :: a1 :: a2 :: a3 :: b0 :: b1 :: b2 :: b3 :: rest) 4
  = inr (byte_to_Z b0 * 2 ^ 24 + byte_to_Z b1 * 2 ^ 16
         + byte_to_Z b2 * 2 ^ 8 + byte_to_Z b3).
Proof. reflexivity. Qed.

(** A read throws exactly when the buffer ends before its last byte. *)
Lemma readUInt32BE_short buf offset :
  (length buf < offset + 4)%nat →
  readUInt32BE buf offset = inl (boundsError (length buf)).
Proof.
  intros H. unfold readUInt32BE.
  rewrite (lookup_ge_None_2 buf (offset + 3)) by lia.
  repeat case_match; reflexivity.
Qed.

Lemma readUInt32BE_range buf offset v :
  readUInt32BE buf offset = inr v → 0 <= v < 2 ^ 32 ∧ (offset + 4 <= length buf)%nat.
Proof.
  unfold readUInt32BE. intros H.
  destruct (buf !! offset) as [b0|] eqn:E0; [|discriminate].
  destruct (buf !! (offset + 1)%nat) as [b1|] eqn:E1; [|discriminate].
  destruct (buf !! (offset + 2)%nat) as [b2|] eqn:E2; [|discriminate].
  destruct (buf !! (offset + 3)%nat) as [b3|] eqn:E3; [|discriminate].
  injection H as <-. apply lookup_lt_Some in E3.
  pose proof (byte_to_Z_range b0). pose proof (byte_to_Z_range b1).
  pose proof (byte_to_Z_range b2). pose proof (byte_to_Z_range b3).
  split; lia.
Qed.

End BufferFacts.

(** ** The record layout *)
Section CodecFacts.

Import Buffer Codec.

Lemma uint32_in_range v :
  0 <= v < 2 ^ 32 → negb ((0 <=? v) && (v <=? 4294967295)) = false.
Proof.
  intros Hv. apply negb_false_iff, andb_true_iff.
  split; apply Z.leb_le; lia.
Qed.

Lemma writeUInt32BE_0 v b0 b1 b2 b3 rest :
  0 <= v < 2 ^ 32 →
  writeUInt32BE (b0 :: b1 :: b2 :: b3 :: rest) (PNum v) 0
  = inr (uint32be v ++ rest).
Proof.
  intros Hv. unfold writeUInt32BE. cbn [ToNumber default from_option id].
  rewrite (uint32_in_range v Hv). reflexivity.
Qed.

Lemma writeUInt32BE_4 v a0 a1 a2 a3 b0 b1 b2 b3 rest :
  0 <= v < 2 ^ 32 →
  writeUInt32BE (a0 :: a1 :: a2 :: a3 :: b0 :: b1 :: b2 :: b3 :: rest)
    (PNum v) 4
  = inr ([a0; a1; a2; a3] ++ uint32be v ++ rest).
Proof.
  intros Hv. unfold writeUInt32BE. cbn [ToNumber default from_option id].
  rewrite (uint32_in_range v Hv). reflexivity.
Qed.

(** Copying a source into the zeroed tail of a buffer. *)
Lemma copy_into_tail (source pre : list byte) n x :
  copy source (pre ++ replicate (length source + n) x) (length pre)
  = pre ++ source ++ replicate n x.
Proof.
  unfold copy.
  rewrite length_app, length_replicate.
  replace (length pre + (length source + n) - length pre)%nat
    with (length source + n)%nat by lia.
  rewrite Nat.min_l by lia.
  rewrite take_app_length, firstn_all.
  rewrite drop_app_add', replicate_add, drop_app_length' by
    (rewrite ?length_replicate; reflexivity).
  reflexivity.
Qed.

Lemma uint32be_length v : length (uint32be v) = 4%nat.
Proof. reflexivity. Qed.

(** [combine] produces the layout of the specification. *)
Lemma combine_layout S K C :
  Z.of_nat (length S) < 2 ^ 32 → 0 <= C < 2 ^ 32 →
  combine S K (PNum C) = inr (encoded_record S C K).
Proof.
  intros HS HC. unfold combine, encoded_record, alloc.
  replace (length K + length S + 8)%nat
    with (8 + (length S + length K))%nat by lia.
  cbn [Nat.add replicate].
  rewrite writeUInt32BE_0 by lia. cbn [mbind throw_bind].
  cbn [uint32be app].
  rewrite writeUInt32BE_4 by lia. cbn [mbind throw_bind].
  set (hdr := uint32be (Z.of_nat (length S)) ++ uint32be C).
  change (copy S _ 8)
    with (copy S (hdr ++ replicate (length S + length K) "000"%byte)
            (length hdr)).
  rewrite copy_into_tail.
  replace (length S + 8)%nat with (length (hdr ++ S))
    by (rewrite length_app; subst hdr; cbn [length app uint32be]; lia).
  rewrite (app_assoc hdr S).
  rewrite <- (Nat.add_0_r (length K)) at 1.
  rewrite copy_into_tail. cbn [replicate].
  rewrite app_nil_r. subst hdr. rewrite <- !app_assoc. reflexivity.
Qed.

Lemma uint32be_read v :
  0 <= v < 2 ^ 32 →
  byte_to_Z (byte_of_Z (v / 2 ^ 24)) * 2 ^ 24
  + byte_to_Z (byte_of_Z (v / 2 ^ 16)) * 2 ^ 16
  + byte_to_Z (byte_of_Z (v / 2 ^ 8)) * 2 ^ 8
  + byte_to_Z (byte_of_Z v) = v.
Proof.
  intros Hv. rewrite !byte_to_of_Z. apply uint32_digits, Hv.
Qed.

(** What [compare] reads from a buffer laid out as a record. *)
Lemma decode_layout S C K :
  Z.of_nat (length S) < 2 ^ 32 → 0 <= C < 2 ^ 32 →
  decode (encoded_record S C K)
  = inr {| saltBytes := Z.of_nat (length S); salt := S;
           hashBytes := Z.of_nat (length K); iterations := C;
           hash := latin1 K |}.
Proof.
  intros HS HC. unfold decode, encoded_record.
  rewrite from_hex_to_hex. cbn [uint32be app].
  rewrite readUInt32BE_0, uint32be_read by lia. cbn [mbind throw_bind].
  rewrite readUInt32BE_4, uint32be_read by lia. cbn [mbind throw_bind].
  unfold slice, toString_binary.
  replace (Z.to_nat (Z.of_nat (length S) + 8)) with (8 + length S)%nat by lia.
  replace (8 + length S - 8)%nat with (length S) by lia.
  f_equal. f_equal.
  - cbn [drop]. apply take_app_length.
  - cbn [length]. rewrite length_app. lia.
  - f_equal. rewrite <- drop_drop. cbn [drop]. apply drop_app_length.
Qed.

End CodecFacts.

(** ** Argument validation of the primitives *)
Section CryptoFacts.

Import crypto.

Lemma validateInteger_num n min max :
  min <= n <= max → validateInteger (VPrim (PNum n)) min max = inr n.
Proof.
  intros H. unfold validateInteger.
  replace ((min <=? n) && (n <=? max)) with true; [reflexivity|].
  symmetry. apply andb_true_iff. split; apply Z.leb_le; lia.
Qed.

Lemma validateInteger_inv v min max n :
  validateInteger v min max = inr n → v = VPrim (PNum n) ∧ min <= n <= max.
Proof.
  unfold validateInteger. intros H.
  destruct v as [[| | |m|]| | |]; try discriminate.
  destruct (Z.leb_spec min m), (Z.leb_spec m max); try discriminate.
  injection H as <-. split; [reflexivity|lia].
Qed.

Lemma validateString_inv v s :
  validateString v = inr s → v = VPrim (PStr s).
Proof.
  destruct v as [[| | | |s']| | |]; try discriminate.
  cbn. now intros [= <-].
Qed.

Lemma completion_value r b :
  completion r = CallbackValue b → r = inr b.
Proof. destruct r; [discriminate|]. now intros [= <-]. Qed.

Lemma completion_not_error r e : completion r ≠ CallbackError e.
Proof. destruct r; discriminate. Qed.

Lemma stream_length (f : nat → byte) n :
  length (map f (seq 0 n)) = n.
Proof. now rewrite length_map, length_seq. Qed.

(** What a successful call of [crypto.randomBytes] had as size. *)
Lemma randomBytes_value entropy size cb salt :
  randomBytes entropy [size; cb] = CallbackValue salt →
  ∃ f n, entropy = EntropyStream f ∧ size = VPrim (PNum n)
         ∧ 0 <= n <= 2147483647 ∧ salt = map f (seq 0 (Z.to_nat n)).
Proof.
  unfold randomBytes, arg. cbn [lookup list_lookup default from_option id].
  destruct (validateInteger size 0 2147483647) as [e|n] eqn:E; [discriminate|].
  destruct (validateFunction cb); [discriminate|].
  destruct entropy as [e|f]; [discriminate|].
  intros [= <-]. apply validateInteger_inv in E as [-> Hn].
  exists f, n. auto.
Qed.

Lemma randomBytes_run f n :
  0 <= n <= 2147483647 →
  randomBytes (EntropyStream f) [VPrim (PNum n); VFunction]
  = CallbackValue (map f (seq 0 (Z.to_nat n))).
Proof.
  intros Hn. unfold randomBytes, arg.
  cbn [lookup list_lookup default from_option id].
  now rewrite validateInteger_num.
Qed.

Lemma empty_key_error_positive K l key :
  0 < l → empty_key_error K l key = false.
Proof.
  intros Hl. unfold empty_key_error.
  destruct (Z.eqb_spec l 0); [lia|]. now rewrite andb_false_r.
Qed.

Lemma empty_key_error_nonempty K l key :
  key ≠ [] → empty_key_error K l key = false.
Proof.
  intros Hk. unfold empty_key_error.
  rewrite bool_decide_eq_false_2 by assumption. apply andb_false_r.
Qed.

(** Whether a derivation is refused depends on the requested length
    only, for keys that have the requested length. *)
Lemma empty_key_error_transfer K l key key' :
  0 <= l → length key = Z.to_nat l →
  empty_key_error K l key = false → empty_key_error K l key' = false.
Proof.
  intros Hl Hlen. unfold empty_key_error.
  destruct (empty_key_refused K); [|reflexivity].
  destruct (Z.eqb_spec l 0) as [->|]; [|reflexivity].
  apply nil_length_inv in Hlen as ->.
  rewrite bool_decide_eq_true_2 by reflexivity. discriminate.
Qed.

Lemma pbkdf2_check_inv pw salt it len d cb r :
  pbkdf2_check [VPrim (PStr pw); salt; it; len; d; cb] = inr r →
  ∃ s i l dn,
    r = (dn, list_byte_of_string pw, s, i, l)
    ∧ getArrayBufferOrView salt = inr s ∧ it = VPrim (PNum i)
    ∧ 1 <= i <= 2147483647 ∧ len = VPrim (PNum l) ∧ 0 <= l <= 2147483647
    ∧ d = VPrim (PStr dn).
Proof.
  unfold pbkdf2_check, arg.
  cbn [lookup list_lookup default from_option id].
  destruct (validateString d) as [e|dn] eqn:Ed; [discriminate|].
  cbn [mbind throw_bind getArrayBufferOrView].
  destruct (getArrayBufferOrView salt) as [e|s] eqn:Es; [discriminate|].
  unfold validateInt32.
  destruct (validateInteger it 1 2147483647) as [e|i] eqn:Ei; [discriminate|].
  destruct (validateInteger len 0 2147483647) as [e|l] eqn:El; [discriminate|].
  destruct (validateFunction cb); [discriminate|].
  intros [= <-].
  apply validateString_inv in Ed. apply validateInteger_inv in Ei as [-> Hi].
  apply validateInteger_inv in El as [-> Hl].
  exists s, i, l, dn. auto 10.
Qed.

(** What a successful call of [crypto.pbkdf2] had as arguments. *)
Lemma pbkdf2_value K pw salt it len d cb key :
  pbkdf2 K [VPrim (PStr pw); salt; it; len; d; cb] = CallbackValue key →
  ∃ s i l dn,
    getArrayBufferOrView salt = inr s ∧ it = VPrim (PNum i)
    ∧ 1 <= i <= 2147483647 ∧ len = VPrim (PNum l) ∧ 0 <= l <= 2147483647
    ∧ d = VPrim (PStr dn) ∧ digest_known K dn = true
    ∧ key = pbkdf2_key K (list_byte_of_string pw) s i l dn.
Proof.
  unfold pbkdf2.
  destruct (pbkdf2_check _) as [e|r] eqn:Ec; [discriminate|].
  apply pbkdf2_check_inv in Ec
    as (s & i & l & dn & -> & Es & Ei & Hi & El & Hl & Ed).
  destruct (digest_known K dn) eqn:Ek;
    [|destruct (digest_named K dn); discriminate].
  cbv zeta. destruct (empty_key_error K l _); [discriminate|].
  intros [= <-]. exists s, i, l, dn. auto 10.
Qed.

(** A successful call was not a refused derivation. *)
Lemma pbkdf2_value_delivered K pw s i l dn cb key :
  pbkdf2 K [VPrim (PStr pw); VBuffer s; VPrim (PNum i); VPrim (PNum l);
            VPrim (PStr dn); cb] = CallbackValue key →
  empty_key_error K l (pbkdf2_key K (list_byte_of_string pw) s i l dn) = false.
Proof.
  unfold pbkdf2.
  destruct (pbkdf2_check _) as [e|r] eqn:Ec; [discriminate|].
  apply pbkdf2_check_inv in Ec
    as (s' & i' & l' & dn' & -> & [= <-] & [= <-] & Hi & [= <-] & Hl & [= <-]).
  destruct (digest_known K dn);
    [|destruct (digest_named K dn); discriminate].
  cbv zeta. destruct (empty_key_error K l _); [discriminate|reflexivity].
Qed.

Lemma pbkdf2_value_number K args key :
  pbkdf2 K args = CallbackValue key →
  ∃ i, arg args 2 = VPrim (PNum i) ∧ 1 <= i <= 2147483647.
Proof.
  unfold pbkdf2, pbkdf2_check.
  destruct (validateString (arg args 4)) as [e|dn]; [discriminate|].
  cbn [mbind throw_bind].
  destruct (getArrayBufferOrView (arg args 0)) as [e|pw]; [discriminate|].
  destruct (getArrayBufferOrView (arg args 1)) as [e|s]; [discriminate|].
  unfold validateInt32.
  destruct (validateInteger (arg args 2) 1 2147483647) as [e|i] eqn:Ei;
    [discriminate|].
  intros _. apply validateInteger_inv in Ei as [-> Hi]. eauto.
Qed.

(** Without a salt the call throws while it validates its arguments. *)
Lemma pbkdf2_undefined_salt K a0 rest :
  ∃ e, pbkdf2 K (a0 :: VPrim PUndefined :: rest) = Throws e.
Proof.
  unfold pbkdf2, pbkdf2_check, arg.
  cbn [lookup list_lookup default from_option id].
  destruct (validateString _) as [e|dn]; [eexists; reflexivity|].
  cbn [mbind throw_bind].
  destruct (getArrayBufferOrView a0) as [e|pw]; eexists; reflexivity.
Qed.

Lemma pbkdf2_run K pw s i l dn :
  1 <= i <= 2147483647 → 0 <= l <= 2147483647 → digest_known K dn = true →
  empty_key_error K l (pbkdf2_key K (list_byte_of_string pw) s i l dn)
  = false →
  pbkdf2 K [VPrim (PStr pw); VBuffer s; VPrim (PNum i); VPrim (PNum l);
            VPrim (PStr dn); VFunction]
  = CallbackValue (pbkdf2_key K (list_byte_of_string pw) s i l dn).
Proof.
  intros Hi Hl Hk He. unfold pbkdf2, pbkdf2_check, arg, validateInt32.
  cbn [lookup list_lookup default from_option id validateString
       getArrayBufferOrView mbind throw_bind].
  rewrite !validateInteger_num by lia.
  cbn [mbind throw_bind validateFunction]. now rewrite Hk, He.
Qed.

End CryptoFacts.

Section ScryptCallFacts.

Import crypto.

(** A call of [crypto.scrypt] that completes had an int32 key length as
    its third argument. *)
Lemma scrypt_value_number K args key :
  scrypt K args = CallbackValue key →
  ∃ l, arg args 2 = VPrim (PNum l) ∧ 0 <= l <= 2147483647.
Proof.
  unfold scrypt.
  destruct (match arg args 4 with
            | VPrim PUndefined => (None, arg args 3)
            | cb => (Some (arg args 3), cb)
            end) as [options callback].
  intros H. apply completion_value in H. revert H.
  destruct (getArrayBufferOrView (arg args 0)) as [e|pw]; [discriminate|].
  cbn [mbind throw_bind].
  destruct (getArrayBufferOrView (arg args 1)) as [e|s]; [discriminate|].
  unfold validateInt32.
  destruct (validateInteger (arg args 2) 0 2147483647) as [e|l] eqn:El;
    [discriminate|].
  intros _. apply validateInteger_inv in El as [-> Hl]. eauto.
Qed.

(** With [undefined] in fifth position the fourth argument is taken as
    the callback: a number there makes the call throw, whatever else is
    passed, sixth argument included. *)
Lemma scrypt_number_as_callback K a0 a1 a2 n rest :
  ∃ e, scrypt K (a0 :: a1 :: a2 :: VPrim (PNum n) :: VPrim PUndefined :: rest)
       = Throws e.
Proof.
  unfold scrypt, arg.
  cbn [lookup list_lookup default from_option id scrypt_params].
  destruct (getArrayBufferOrView a0) as [e|pw]; [eexists; reflexivity|].
  cbn [mbind throw_bind].
  destruct (getArrayBufferOrView a1) as [e|s]; [eexists; reflexivity|].
  destruct (validateInt32 a2 0) as [e|l]; [eexists; reflexivity|].
  eexists; reflexivity.
Qed.

Lemma scrypt_number_as_callback_type K pw s l n rest :
  0 <= l <= 2147483647 →
  scrypt K (VPrim (PStr pw) :: VBuffer s :: VPrim (PNum l)
            :: VPrim (PNum n) :: VPrim PUndefined :: rest)
  = Throws (TypeError "ERR_INVALID_ARG_TYPE").
Proof.
  intros Hl. unfold scrypt, arg, validateInt32.
  cbn [lookup list_lookup default from_option id scrypt_params
       getArrayBufferOrView mbind throw_bind].
  rewrite validateInteger_num by lia. reflexivity.
Qed.

End ScryptCallFacts.

(** ** The scrypt processor *)
Section ScryptFacts.

Import crypto.

Lemma scrypt_defaults_digest : get Scrypt.defaults "digest" = PUndefined.
Proof. reflexivity. Qed.

(** What a fulfilled [hash] produced: the record of the generated salt,
    the configured key length and the derived key. *)
Lemma scrypt_hash_resolved K this pw opts entropy h :
  Scrypt.hash K this pw opts entropy = Resolved h →
  ∃ salt l key,
    get (Scrypt.temporalOptions this opts) "keyLength" = PNum l
    ∧ 0 <= l <= 2147483647
    ∧ Z.of_nat (length salt) <= 2147483647
    ∧ h = Codec.encoded_record salt l key.
Proof.
  unfold Scrypt.hash.
  set (t := Scrypt.temporalOptions this opts).
  destruct (randomBytes entropy _) as [e|e|salt] eqn:Er; try discriminate.
  apply randomBytes_value in Er as (f & n & -> & _ & Hn & ->).
  destruct (scrypt K _) as [e|e|key] eqn:Es; try discriminate.
  apply scrypt_value_number in Es as (l & El & Hl).
  unfold Scrypt.hash_call, arg in El.
  cbn [lookup list_lookup default from_option id] in El.
  injection El as El. rewrite El.
  rewrite combine_layout by (rewrite ?stream_length; lia).
  intros [= <-]. exists (map f (seq 0 (Z.to_nat n))), l, key.
  rewrite stream_length. repeat split; auto; lia.
Qed.

(** [compare] never fulfils its promise: every path ends in a throw
    inside the promise executor. *)
Lemma scrypt_compare_rejects K incoming stored :
  ∃ e, Scrypt.compare K incoming stored = Rejected e.
Proof.
  unfold Scrypt.compare, Scrypt.compare_call.
  destruct (Codec.decode stored) as [e|d]; [eexists; reflexivity|].
  cbn [mbind throw_bind]. rewrite scrypt_defaults_digest.
  destruct (scrypt_number_as_callback K (VPrim (PStr incoming))
              (VBuffer (Codec.salt d)) (VPrim (PNum (Codec.iterations d)))
              (Codec.hashBytes d) [VFunction]) as [e ->].
  eexists; reflexivity.
Qed.

End ScryptFacts.

(** ** The PBKDF2 processor *)
Section PBKDF2Facts.

Import crypto.

Lemma pbkdf2_defaults_digest : get PBKDF2.defaults "digest" = PStr "whirlpool".
Proof. reflexivity. Qed.

(** What a fulfilled [hash] was configured with and what it produced. *)
Lemma pbkdf2_hash_resolved K this pw opts entropy h :
  PBKDF2.hash K this pw opts entropy = Resolved h →
  ∃ f n i l dn,
    entropy = EntropyStream f
    ∧ get (PBKDF2.temporalOptions this opts) "saltBytes" = PNum n
    ∧ 0 <= n <= 2147483647
    ∧ get (PBKDF2.temporalOptions this opts) "iterations" = PNum i
    ∧ 1 <= i <= 2147483647
    ∧ get (PBKDF2.temporalOptions this opts) "hashBytes" = PNum l
    ∧ 0 <= l <= 2147483647
    ∧ get (PBKDF2.temporalOptions this opts) "digest" = PStr dn
    ∧ digest_known K dn = true
    ∧ h = Codec.encoded_record (map f (seq 0 (Z.to_nat n))) i
            (pbkdf2_key K (list_byte_of_string pw)
               (map f (seq 0 (Z.to_nat n))) i l dn).
Proof.
  unfold PBKDF2.hash.
  set (t := PBKDF2.temporalOptions this opts).
  destruct (randomBytes entropy _) as [e|e|salt] eqn:Er.
  1, 2: destruct (pbkdf2 K _) as [e'|e'|key] eqn:Ep; try discriminate;
        apply pbkdf2_value in Ep as (s & ? & ? & ? & Es & _); discriminate.
  apply randomBytes_value in Er as (f & n & -> & En & Hn & ->).
  destruct (pbkdf2 K _) as [e'|e'|key] eqn:Ep; try discriminate.
  apply pbkdf2_value in Ep
    as (s & i & l & dn & Es & Ei & Hi & El & Hl & Ed & Hk & ->).
  injection Es as <-. injection Ei as Ei. injection El as El.
  injection Ed as Ed. injection En as En.
  rewrite Ei, combine_layout by (rewrite ?stream_length; lia).
  cbn [settle]. intros [= <-].
  exists f, n, i, l, dn. auto 12.
Qed.

(** A fulfilled [hash] was not a refused derivation. *)
Lemma pbkdf2_hash_delivered K this pw opts f h n i l dn :
  PBKDF2.hash K this pw opts (EntropyStream f) = Resolved h →
  get (PBKDF2.temporalOptions this opts) "saltBytes" = PNum n →
  get (PBKDF2.temporalOptions this opts) "iterations" = PNum i →
  get (PBKDF2.temporalOptions this opts) "hashBytes" = PNum l →
  get (PBKDF2.temporalOptions this opts) "digest" = PStr dn →
  empty_key_error K l
    (pbkdf2_key K (list_byte_of_string pw) (map f (seq 0 (Z.to_nat n))) i l dn)
  = false.
Proof.
  unfold PBKDF2.hash. intros Hh En Ei El Ed. rewrite En, Ei, El, Ed in Hh.
  destruct (randomBytes _ _) as [e|e|salt] eqn:Er.
  1, 2: destruct (pbkdf2 K _) as [e'|e'|key] eqn:Ep; try discriminate;
        apply pbkdf2_value in Ep as (s & ? & ? & ? & Es & _); discriminate.
  apply randomBytes_value in Er as (f' & n' & [= <-] & [= <-] & Hn & ->).
  destruct (pbkdf2 K _) as [e'|e'|key] eqn:Ep; try discriminate.
  now apply pbkdf2_value_delivered in Ep.
Qed.

(** [hash] with numeric options in range and a digest the platform knows
    fulfils its promise with the record of salt, iterations and key,
    unless the derivation is a refused empty one. *)
Lemma pbkdf2_hash_run K this pw opts f n i l dn :
  get (PBKDF2.temporalOptions this opts) "saltBytes" = PNum n →
  0 <= n <= 2147483647 →
  get (PBKDF2.temporalOptions this opts) "iterations" = PNum i →
  1 <= i <= 2147483647 →
  get (PBKDF2.temporalOptions this opts) "hashBytes" = PNum l →
  0 <= l <= 2147483647 →
  get (PBKDF2.temporalOptions this opts) "digest" = PStr dn →
  digest_known K dn = true →
  empty_key_error K l
    (pbkdf2_key K (list_byte_of_string pw) (map f (seq 0 (Z.to_nat n))) i l dn)
  = false →
  PBKDF2.hash K this pw opts (EntropyStream f)
  = Resolved (Codec.encoded_record (map f (seq 0 (Z.to_nat n))) i
                (pbkdf2_key K (list_byte_of_string pw)
                   (map f (seq 0 (Z.to_nat n))) i l dn)).
Proof.
  intros En Hn Ei Hi El Hl Ed Hk He. unfold PBKDF2.hash.
  rewrite En, Ei, El, Ed, randomBytes_run, pbkdf2_run by assumption.
  rewrite combine_layout by (rewrite ?stream_length; lia).
  reflexivity.
Qed.

(** [compare] on a record whose iteration count and key length the
    primitive accepts: the promise is fulfilled with the result of the
    byte comparison between the re-derived and the stored key. *)
Lemma pbkdf2_compare_record K incoming S C Kd :
  Z.of_nat (length S) < 2 ^ 32 → 1 <= C <= 2147483647 →
  Z.of_nat (length Kd) <= 2147483647 →
  digest_known K "whirlpool" = true →
  empty_key_error K (Z.of_nat (length Kd))
    (pbkdf2_key K (list_byte_of_string incoming) S C
       (Z.of_nat (length Kd)) "whirlpool") = false →
  PBKDF2.compare K incoming (Codec.encoded_record S C Kd)
  = Resolved (bool_decide
      (pbkdf2_key K (list_byte_of_string incoming) S C
         (Z.of_nat (length Kd)) "whirlpool" = Kd)).
Proof.
  intros HS HC HK Hd He. unfold PBKDF2.compare, PBKDF2.compare_call.
  rewrite decode_layout by lia. cbn [mbind throw_bind].
  rewrite pbkdf2_defaults_digest.
  cbn [Codec.salt Codec.iterations Codec.hashBytes Codec.hash].
  rewrite pbkdf2_run by (assumption || lia).
  now rewrite latin1_eqb.
Qed.

(** The re-derivation request of [compare] names the digest of the
    module-level [defaults], for every stored string. *)
Lemma pbkdf2_compare_digest incoming stored d args :
  PBKDF2.compare_call incoming stored = inr (d, args) →
  arg args 4 = VPrim (PStr "whirlpool").
Proof.
  unfold PBKDF2.compare_call.
  destruct (Codec.decode stored) as [e|d']; [discriminate|].
  cbn [mbind throw_bind]. intros [= _ <-]. reflexivity.
Qed.

(** On the PBKDF2 path a password verifies against its own record when
    the record was made under the default digest. *)
Lemma pbkdf2_compare_of_hash K this pw opts entropy h :
  Kdf_lengths K →
  get (PBKDF2.temporalOptions this opts) "digest" = PStr "whirlpool" →
  PBKDF2.hash K this pw opts entropy = Resolved h →
  PBKDF2.compare K pw h = Resolved true.
Proof.
  intros [HL _] Ed Hh.
  pose proof Hh as Hh'.
  apply pbkdf2_hash_resolved in Hh
    as (f & n & i & l & dn & -> & En & Hn & Ei & Hi & El & Hl & Ed' & Hk & ->).
  pose proof (pbkdf2_hash_delivered _ _ _ _ _ _ _ _ _ _ Hh' En Ei El Ed') as He.
  rewrite Ed in Ed'. injection Ed' as <-.
  rewrite pbkdf2_compare_record
    by (rewrite ?HL, ?stream_length, ?Z2Nat.id by lia; (assumption || lia)).
  rewrite HL, Z2Nat.id by lia. now rewrite bool_decide_eq_true_2.
Qed.

(** On a record that [hash] made, the outcome of [compare] for any
    incoming password: the key re-derived under "whirlpool" is compared
    with the key that [hash] derived under the digest it was given. *)
Lemma pbkdf2_compare_hash_record K this pw opts f h n i l dn incoming :
  Kdf_lengths K →
  digest_known K "whirlpool" = true →
  PBKDF2.hash K this pw opts (EntropyStream f) = Resolved h →
  get (PBKDF2.temporalOptions this opts) "saltBytes" = PNum n →
  get (PBKDF2.temporalOptions this opts) "iterations" = PNum i →
  get (PBKDF2.temporalOptions this opts) "hashBytes" = PNum l →
  get (PBKDF2.temporalOptions this opts) "digest" = PStr dn →
  PBKDF2.compare K incoming h
  = Resolved (bool_decide
      (pbkdf2_key K (list_byte_of_string incoming)
         (map f (seq 0 (Z.to_nat n))) i l "whirlpool"
       = pbkdf2_key K (list_byte_of_string pw)
           (map f (seq 0 (Z.to_nat n))) i l dn)).
Proof.
  intros [HL _] Hw Hh En Ei El Ed.
  pose proof (pbkdf2_hash_delivered _ _ _ _ _ _ _ _ _ _ Hh En Ei El Ed) as He.
  apply pbkdf2_hash_resolved in Hh
    as (f' & n' & i' & l' & dn' & [= <-] & En' & Hn & Ei' & Hi & El' & Hl
        & Ed' & Hk & ->).
  rewrite En in En'. rewrite Ei in Ei'. rewrite El in El'. rewrite Ed in Ed'.
  injection En' as <-. injection Ei' as <-. injection El' as <-.
  injection Ed' as <-.
  rewrite pbkdf2_compare_record; rewrite ?HL, ?stream_length, ?Z2Nat.id by lia;
    try (assumption || lia).
  - reflexivity.
  - eapply empty_key_error_transfer; [| |exact He]; [lia|apply HL].
Qed.

Lemma pbkdf2_default_instance :
  PBKDF2.temporalOptions (PBKDF2.constructor (VPrim PUndefined))
    (VPrim PUndefined) = PBKDF2.defaults.
Proof. reflexivity. Qed.

(** X1. With the defaults, [hash] of the PBKDF2 processor fulfils its
    promise for every password and every generated salt, and [compare]
    with the same password then answers [true]. *)
Lemma pbkdf2_default_roundtrip K pw f :
  Kdf_lengths K → digest_known K "whirlpool" = true →
  ∃ h, PBKDF2.hash K (PBKDF2.constructor (VPrim PUndefined)) pw
         (VPrim PUndefined) (EntropyStream f) = Resolved h
       ∧ PBKDF2.compare K pw h = Resolved true.
Proof.
  intros HL Hk. eexists. split.
  - apply (pbkdf2_hash_run K _ pw _ f 16 777777 32 "whirlpool");
      rewrite ?pbkdf2_default_instance;
      (reflexivity || lia || assumption
       || (apply empty_key_error_positive; lia)).
  - eapply pbkdf2_compare_of_hash; [exact HL | |].
    + rewrite pbkdf2_default_instance. reflexivity.
    + apply (pbkdf2_hash_run K _ pw _ f 16 777777 32 "whirlpool");
        rewrite ?pbkdf2_default_instance;
        (reflexivity || lia || assumption
         || (apply empty_key_error_positive; lia)).
Qed.

End PBKDF2Facts.

(** ** The sample primitives *)

Lemma sample_kdf_lengths : Kdf_lengths Sample.kdf.
Proof.
  split; intros; cbn [pbkdf2_key scrypt_key Sample.kdf];
    now rewrite length_map, length_seq.
Qed.

(** * The claims *)

(** C1, on the scrypt processor. A record that [hash] of the scrypt
    processor produced for a password is never verified: [compare] called
    with the same password and that record rejects, with the [TypeError]
    that [crypto.scrypt] throws when its callback is not a function. This
    holds for every configuration, the defaults included, every password
    and every generated salt. (On the PBKDF2 processor the same call
    answers [true]: [pbkdf2_default_roundtrip].) *)
Theorem scrypt_compare_of_hash_rejects K this pw opts entropy h :
  Scrypt.hash K this pw opts entropy = Resolved h →
  Scrypt.compare K pw h = Rejected (TypeError "ERR_INVALID_ARG_TYPE").
Proof.
  intros Hh.
  apply scrypt_hash_resolved in Hh as (salt & l & key & _ & Hl & Hs & ->).
  unfold Scrypt.compare, Scrypt.compare_call.
  rewrite decode_layout by lia. cbn [mbind throw_bind].
  rewrite scrypt_defaults_digest.
  cbn [Codec.salt Codec.iterations Codec.hashBytes].
  now rewrite scrypt_number_as_callback_type.
Qed.

Lemma scrypt_compare_of_hash_rejects_witness :
  ∃ h, Scrypt.hash Sample.kdf (Scrypt.constructor (VPrim PUndefined))
         EmptyString (VPrim PUndefined) (Sample.counting 7) = Resolved h
       ∧ Scrypt.compare Sample.kdf EmptyString h
         = Rejected (TypeError "ERR_INVALID_ARG_TYPE").
Proof.
  eexists. split.
  - vm_compute. reflexivity.
  - apply (scrypt_compare_of_hash_rejects Sample.kdf
             (Scrypt.constructor (VPrim PUndefined)) EmptyString
             (VPrim PUndefined) (Sample.counting 7)).
    vm_compute. reflexivity.
Defined.

(** C2. For every salt [S] of 1 to 64 bytes, every derived key [K] of 1
    to 128 bytes and every cost parameter [C] from 0 to 2^32-1, the
    buffer that [hash] builds is [uint32be(len S) || uint32be(C) || S || K]
    in hexadecimal, and what [compare] reads from that string is exactly
    [S], [C] and [K]. *)
Theorem codec_roundtrip (S K : list byte) (C : Z) :
  (1 <= length S <= 64)%nat → (1 <= length K <= 128)%nat →
  0 <= C <= 2 ^ 32 - 1 →
  Codec.combine S K (PNum C) = inr (Codec.encoded_record S C K)
  ∧ ∃ d, Codec.decode (Codec.encoded_record S C K) = inr d
         ∧ Codec.saltBytes d = Z.of_nat (length S)
         ∧ Codec.salt d = S
         ∧ Codec.iterations d = C
         ∧ Codec.hashBytes d = Z.of_nat (length K)
         ∧ Buffer.from_binary (Codec.hash d) = K.
Proof.
  intros HS HK HC. split.
  - apply combine_layout; lia.
  - eexists. split; [apply decode_layout; lia|].
    cbn [Codec.saltBytes Codec.salt Codec.iterations Codec.hashBytes
         Codec.hash].
    repeat split. apply from_binary_latin1.
Qed.

Lemma codec_roundtrip_witness :
  Codec.combine ["001"; "002"]%byte ["003"; "004"; "005"]%byte (PNum 777777)
  = inr "00000002000bde310102030405"
  ∧ ∃ d, Codec.decode "00000002000bde310102030405" = inr d
         ∧ Codec.saltBytes d = 2
         ∧ Codec.salt d = ["001"; "002"]%byte
         ∧ Codec.iterations d = 777777
         ∧ Codec.hashBytes d = 3
         ∧ Buffer.from_binary (Codec.hash d) = ["003"; "004"; "005"]%byte.
Proof.
  apply (codec_roundtrip ["001"; "002"]%byte ["003"; "004"; "005"]%byte
           777777); simpl; lia.
Defined.



(** ** Option merging *)

Lemma Object_assign_lookup (base over : gmap string prim) k :
  Object_assign base over !! k
  = match over !! k with
    | Some v => Some v
    | None => base !! k
    end.
Proof.
  unfold Object_assign. rewrite lookup_union.
  destruct (over !! k), (base !! k); reflexivity.
Qed.



(** ** Independence of [maxmem] *)

(** [hash] of the scrypt processor reads five keys of the options it
    works with; two calls whose options agree outside [maxmem] end the
    same way. *)
Lemma scrypt_hash_reads K this1 opts1 this2 opts2 pw entropy :
  (∀ k, k ≠ "maxmem" →
        get (Scrypt.temporalOptions this1 opts1) k
        = get (Scrypt.temporalOptions this2 opts2) k) →
  Scrypt.hash K this1 pw opts1 entropy = Scrypt.hash K this2 pw opts2 entropy.
Proof.
  intros H. unfold Scrypt.hash, Scrypt.hash_call.
  rewrite (H "saltBytes"), (H "keyLength"), (H "cost"), (H "blockSize"),
    (H "parallelization") by discriminate.
  reflexivity.
Qed.

Lemma get_assign_maxmem (base o : gmap string prim) m1 m2 k :
  k ≠ "maxmem" →
  get (Object_assign base (<["maxmem" := m1]> o)) k
  = get (Object_assign base (<["maxmem" := m2]> o)) k.
Proof.
  intros Hk. unfold get. rewrite !Object_assign_lookup.
  rewrite !lookup_insert_ne by congruence. reflexivity.
Qed.

(** C10. The result of [hash] of the scrypt processor does not depend on
    the [maxmem] option: two calls that differ only in the value stored
    under [maxmem], be it in the per-call options or in the options given
    to the constructor, with the same password and the same generated
    salt, end the same way, with equal strings when they fulfil. The
    options object passed to [crypto.scrypt] has no [maxmem] key. *)
Theorem scrypt_hash_independent_of_maxmem K this pw
    (o : gmap string prim) (m1 m2 : prim) entropy :
  Scrypt.hash K this pw (VObject (<["maxmem" := m1]> o)) entropy
  = Scrypt.hash K this pw (VObject (<["maxmem" := m2]> o)) entropy
  ∧ Scrypt.hash K (Scrypt.constructor (VObject (<["maxmem" := m1]> o)))
      pw (VPrim PUndefined) entropy
    = Scrypt.hash K (Scrypt.constructor (VObject (<["maxmem" := m2]> o)))
        pw (VPrim PUndefined) entropy
  ∧ ∀ t salt o', arg (Scrypt.hash_call t pw salt) 3 = VObject o' →
                 o' !! "maxmem" = None.
Proof.
  split; [|split].
  - apply scrypt_hash_reads. intros k Hk.
    unfold Scrypt.temporalOptions. cbn [as_options].
    now apply get_assign_maxmem.
  - apply scrypt_hash_reads. intros k Hk.
    unfold Scrypt.temporalOptions, Scrypt.constructor.
    cbn [as_options Scrypt.options]. now apply get_assign_maxmem.
  - intros t salt o'. unfold Scrypt.hash_call, arg.
    cbn [lookup list_lookup default from_option id].
    intros [= <-]. reflexivity.
Qed.

(** ** Records that cannot be read *)
Section Malformed.

Import crypto.

Lemma readUInt32BE_error buf offset e :
  Buffer.readUInt32BE buf offset = inl e →
  e = Buffer.boundsError (length buf).
Proof.
  unfold Buffer.readUInt32BE. repeat case_match; congruence.
Qed.

Lemma validateInteger_error n min max e :
  validateInteger (VPrim (PNum n)) min max = inl e →
  e = RangeError "ERR_OUT_OF_RANGE".
Proof. unfold validateInteger. case_match; congruence. Qed.

Lemma boundsError_range n : ∃ code, Buffer.boundsError n = RangeError code.
Proof. unfold Buffer.boundsError. case_match; eauto. Qed.

(** A buffer shorter than 8 bytes makes one of the two reads throw. *)
Lemma decode_short stored :
  (length (Buffer.from_hex stored) < 8)%nat →
  Codec.decode stored
  = inl (Buffer.boundsError (length (Buffer.from_hex stored))).
Proof.
  intros H. unfold Codec.decode.
  destruct (Buffer.readUInt32BE (Buffer.from_hex stored) 0) as [e|sl] eqn:E0.
  - apply readUInt32BE_error in E0 as ->. reflexivity.
  - cbn [mbind throw_bind]. now rewrite readUInt32BE_short by lia.
Qed.

(** With at least 8 bytes both reads succeed. *)
Lemma decode_long stored :
  (8 <= length (Buffer.from_hex stored))%nat →
  ∃ d, Codec.decode stored = inr d
       ∧ Buffer.readUInt32BE (Buffer.from_hex stored) 0
         = inr (Codec.saltBytes d)
       ∧ Codec.hashBytes d
         = Z.of_nat (length (Buffer.from_hex stored)) - Codec.saltBytes d - 8.
Proof.
  intros H. unfold Codec.decode.
  destruct (Buffer.from_hex stored)
    as [|a0 [|a1 [|a2 [|a3 [|b0 [|b1 [|b2 [|b3 rest]]]]]]]];
    cbn [length] in H; try lia.
  rewrite readUInt32BE_0, readUInt32BE_4. cbn [mbind throw_bind].
  eexists. split; [reflexivity|]. split; reflexivity.
Qed.

(** A negative key length is refused by [crypto.pbkdf2]. *)
Lemma pbkdf2_compare_negative K incoming stored d :
  Codec.decode stored = inr d → Codec.hashBytes d < 0 →
  PBKDF2.compare K incoming stored = Rejected (RangeError "ERR_OUT_OF_RANGE").
Proof.
  intros Hd Hneg. unfold PBKDF2.compare, PBKDF2.compare_call.
  rewrite Hd. cbn [mbind throw_bind]. rewrite pbkdf2_defaults_digest.
  unfold pbkdf2, pbkdf2_check, arg, validateInt32.
  cbn [lookup list_lookup default from_option id validateString
       getArrayBufferOrView mbind throw_bind].
  destruct (validateInteger (VPrim (PNum (Codec.iterations d))) 1 _)
    as [e|i] eqn:Ei.
  - apply validateInteger_error in Ei as ->. reflexivity.
  - cbn [mbind throw_bind].
    destruct (validateInteger (VPrim (PNum (Codec.hashBytes d))) 0 _)
      as [e|l] eqn:El.
    + apply validateInteger_error in El as ->. reflexivity.
    + apply validateInteger_inv in El as [[= <-] Hl]. lia.
Qed.

End Malformed.

(** C5, counterexample. [hash] of the PBKDF2 processor makes a record for
    the password "secret"; the record followed by "zz" is not valid
    hexadecimal, yet [compare] fulfils its promise on it, with [true] for
    the right password and [false] for another one: the two characters
    are dropped without an error when the string is decoded. *)
Lemma invalid_hex_is_compared :
  ∃ h, PBKDF2.hash Sample.kdf (PBKDF2.constructor (VPrim PUndefined))
         "secret" (VObject {[ "saltBytes" := PNum 4; "hashBytes" := PNum 6;
                              "iterations" := PNum 5 ]})
         (Sample.counting 9) = Resolved h
       ∧ Buffer.is_hex (h +:+ "zz") = false
       ∧ PBKDF2.compare Sample.kdf "secret" (h +:+ "zz") = Resolved true
       ∧ PBKDF2.compare Sample.kdf "other" (h +:+ "zz") = Resolved false.
Proof.
  eexists. split; [vm_compute; reflexivity|].
  repeat split; vm_compute; reflexivity.
Qed.

(** C5, amended. The stored string is decoded up to its first pair of
    characters that is not hexadecimal. When the decoded buffer is shorter
    than 8 bytes, or when the salt length recorded at offset 0 satisfies
    [8 + saltLength > length of the decoded buffer], [compare] rejects and
    fulfils with no boolean: on the PBKDF2 processor with a [RangeError],
    thrown by the buffer read or by the argument validation of the
    derivation call, on the scrypt processor with some error. *)
Theorem unreadable_record_rejects K incoming stored :
  (length (Buffer.from_hex stored) < 8)%nat
  ∨ (∃ sl, Buffer.readUInt32BE (Buffer.from_hex stored) 0 = inr sl
           ∧ 8 + sl > Z.of_nat (length (Buffer.from_hex stored))) →
  (∃ code, PBKDF2.compare K incoming stored = Rejected (RangeError code))
  ∧ ∃ e, Scrypt.compare K incoming stored = Rejected e.
Proof.
  intros H. split; [|apply scrypt_compare_rejects].
  destruct (Nat.lt_ge_cases (length (Buffer.from_hex stored)) 8) as [Hs|Hl].
  - unfold PBKDF2.compare, PBKDF2.compare_call.
    rewrite decode_short by assumption. cbn [mbind throw_bind].
    destruct (boundsError_range (length (Buffer.from_hex stored)))
      as [code ->].
    eauto.
  - destruct H as [H|(sl & Er & Hsl)]; [lia|].
    destruct (decode_long stored Hl) as (d & Hd & Er' & Hh).
    rewrite Er in Er'. injection Er' as ->.
    eexists. apply (pbkdf2_compare_negative K incoming stored d Hd). lia.
Qed.

Lemma unreadable_record_rejects_witness :
  ((∃ code, PBKDF2.compare Sample.kdf "secret" EmptyString
            = Rejected (RangeError code))
   ∧ ∃ e, Scrypt.compare Sample.kdf "secret" EmptyString = Rejected e)
  ∧ ((∃ code, PBKDF2.compare Sample.kdf "secret" "0000001000bde3"
              = Rejected (RangeError code))
     ∧ ∃ e, Scrypt.compare Sample.kdf "secret" "0000001000bde3" = Rejected e)
  ∧ ((∃ code, PBKDF2.compare Sample.kdf "secret" "00000010000003e8aabbccdd"
              = Rejected (RangeError code))
     ∧ ∃ e, Scrypt.compare Sample.kdf "secret" "00000010000003e8aabbccdd"
            = Rejected e).
Proof.
  split; [|split].
  - apply (unreadable_record_rejects Sample.kdf "secret" EmptyString).
    left. vm_compute. lia.
  - apply (unreadable_record_rejects Sample.kdf "secret" "0000001000bde3").
    left. vm_compute. lia.
  - apply (unreadable_record_rejects Sample.kdf "secret"
             "00000010000003e8aabbccdd").
    right. exists 16. split; [vm_compute; reflexivity|]. vm_compute. reflexivity.
Defined.

(** ** The factory *)
Section FactoryFacts.

Import Factory.

Lemma select_label b : select (label b) = inr (Class b).
Proof. destruct b; reflexivity. Qed.

Lemma select_unknown name :
  (∀ b, name ≠ label b) →
  select name = inl (PlainError "UserCredentialProcessor: Unknown algorithm").
Proof.
  intros H. unfold select.
  destruct (String.eqb_spec name "argon2") as [->|_];
    [destruct (H Argon2Processor); reflexivity|].
  destruct (String.eqb_spec name "bcrypt") as [->|_];
    [destruct (H BcryptProcessor); reflexivity|].
  destruct (String.eqb_spec name "pbkdf2") as [->|_];
    [destruct (H PBKDF2Processor); reflexivity|].
  destruct (String.eqb_spec name "scrypt") as [->|_];
    [destruct (H ScryptProcessor); reflexivity|].
  reflexivity.
Qed.

(** X11. Two or more enabled keys: the factory throws its own error,
    "More than one algorithm enabled", whatever the names are. *)
Lemma exports_several hashingAlgorithm :
  (2 <= length (enabled hashingAlgorithm))%nat →
  exports hashingAlgorithm
  = inl (PlainError
           "UserCredentialProcessor: More than one algorithm enabled. ").
Proof.
  intros H. unfold exports.
  destruct (Nat.ltb_spec 1 (length (enabled hashingAlgorithm))); [|lia].
  reflexivity.
Qed.

(** One enabled key: the factory goes through the [switch]. *)
Lemma exports_single hashingAlgorithm name :
  enabled hashingAlgorithm = [name] →
  exports hashingAlgorithm = select (toLowerCase name).
Proof. intros H. unfold exports. rewrite H. reflexivity. Qed.

(** X12. One enabled key that is none of the four names, in any letter
    case: the factory throws its own error, "Unknown algorithm". *)
Lemma exports_unknown hashingAlgorithm name :
  enabled hashingAlgorithm = [name] →
  (∀ b, toLowerCase name ≠ label b) →
  exports hashingAlgorithm
  = inl (PlainError "UserCredentialProcessor: Unknown algorithm").
Proof.
  intros H Hn. rewrite (exports_single _ _ H). now apply select_unknown.
Qed.

End FactoryFacts.

(** C6, at the configurations with no algorithm enabled. The factory
    does not raise a configuration error there: no statement tests for
    the empty selection, [algorithm[0]] is [undefined], and the call of
    its [toLowerCase] throws a [TypeError]. (With two or more enabled
    keys, and with one unknown name, the factory throws its own error:
    [exports_several], [exports_unknown].) *)
Theorem exports_none_enabled hashingAlgorithm :
  Factory.enabled hashingAlgorithm = [] →
  Factory.exports hashingAlgorithm
  = inl (TypeError "Cannot read properties of undefined")
  ∧ ∀ e, Factory.exports hashingAlgorithm = inl e →
         Factory.is_configuration_error e = false.
Proof.
  intros H. unfold Factory.exports. rewrite H. cbn.
  split; [reflexivity|]. now intros e [= <-].
Qed.

Lemma exports_none_enabled_witness :
  Factory.exports [("pbkdf2", VPrim (PBool false)); ("scrypt", VPrim (PNum 0))]
  = inl (TypeError "Cannot read properties of undefined")
  ∧ ∀ e, Factory.exports
           [("pbkdf2", VPrim (PBool false)); ("scrypt", VPrim (PNum 0))]
         = inl e →
         Factory.is_configuration_error e = false.
Proof.
  apply (exports_none_enabled
           [("pbkdf2", VPrim (PBool false)); ("scrypt", VPrim (PNum 0))]).
  reflexivity.
Defined.

(** C7, counterexample. For the configuration [{PBKDF2: true}] the
    factory returns a class, not an instance, and the returned value has
    no [hash] and no [compare] method of its own to invoke. *)
Lemma exports_returns_a_class :
  Factory.exports [("PBKDF2", VPrim (PBool true))]
  = inr (Factory.Class Factory.PBKDF2Processor)
  ∧ Factory.is_instance (Factory.Class Factory.PBKDF2Processor) = false
  ∧ Factory.has_method (Factory.Class Factory.PBKDF2Processor) "hash" = false
  ∧ Factory.has_method (Factory.Class Factory.PBKDF2Processor) "compare"
    = false.
Proof. repeat split. Qed.

(** C7, amended. For every configuration with exactly one enabled key
    whose name is pbkdf2, scrypt, bcrypt or argon2 in any letter case,
    the factory returns a class that extends the class of that backend;
    every instance constructed from the returned class with [new] is
    bound to that backend and has the methods [hash] and [compare]. *)
Theorem exports_selects_backend_class hashingAlgorithm name b :
  Factory.enabled hashingAlgorithm = [name] →
  Factory.toLowerCase name = Factory.label b →
  Factory.exports hashingAlgorithm = inr (Factory.Class b)
  ∧ ∀ opts, ∃ inst,
      Factory.new (Factory.Class b) opts = inr inst
      ∧ Factory.is_instance inst = true
      ∧ Factory.backend_of inst = b
      ∧ Factory.has_method inst "hash" = true
      ∧ Factory.has_method inst "compare" = true.
Proof.
  intros H Hn. split.
  - rewrite (exports_single _ _ H), Hn. apply select_label.
  - intros opts. eexists. split; [reflexivity|]. repeat split.
Qed.

Lemma exports_selects_backend_class_witness :
  Factory.exports [("argon2", VPrim PNull); ("Scrypt", VPrim (PNum 1));
                   ("bcrypt", VPrim (PStr EmptyString))]
  = inr (Factory.Class Factory.ScryptProcessor)
  ∧ ∀ opts, ∃ inst,
      Factory.new (Factory.Class Factory.ScryptProcessor) opts = inr inst
      ∧ Factory.is_instance inst = true
      ∧ Factory.backend_of inst = Factory.ScryptProcessor
      ∧ Factory.has_method inst "hash" = true
      ∧ Factory.has_method inst "compare" = true.
Proof.
  apply (exports_selects_backend_class
           [("argon2", VPrim PNull); ("Scrypt", VPrim (PNum 1));
            ("bcrypt", VPrim (PStr EmptyString))] "Scrypt" Factory.ScryptProcessor);
    reflexivity.
Defined.

(** C8. [compare] of the PBKDF2 processor always re-derives with the
    digest of the module-level [defaults], ignoring the digest set at
    construction or per call of [hash]. For a record that [hash]
    produced under a digest [dn]: the re-derivation request names
    "whirlpool"; for every incoming password, [compare] answers whether
    the key derived from it under "whirlpool" equals the stored key,
    which was derived under [dn]; consequently, when the two digests
    give different keys for the password, [compare] with the same,
    correct password answers [false] rather than [true]. *)
Theorem pbkdf2_compare_ignores_record_digest K this pw opts f h n i l dn :
  Kdf_lengths K →
  digest_known K "whirlpool" = true →
  PBKDF2.hash K this pw opts (crypto.EntropyStream f) = Resolved h →
  get (PBKDF2.temporalOptions this opts) "saltBytes" = PNum n →
  get (PBKDF2.temporalOptions this opts) "iterations" = PNum i →
  get (PBKDF2.temporalOptions this opts) "hashBytes" = PNum l →
  get (PBKDF2.temporalOptions this opts) "digest" = PStr dn →
  (∃ d args, PBKDF2.compare_call pw h = inr (d, args)
             ∧ arg args 4 = VPrim (PStr "whirlpool"))
  ∧ (∀ incoming,
       PBKDF2.compare K incoming h
       = Resolved (bool_decide
           (pbkdf2_key K (list_byte_of_string incoming)
              (map f (seq 0 (Z.to_nat n))) i l "whirlpool"
            = pbkdf2_key K (list_byte_of_string pw)
                (map f (seq 0 (Z.to_nat n))) i l dn)))
  ∧ (pbkdf2_key K (list_byte_of_string pw) (map f (seq 0 (Z.to_nat n))) i l dn
     ≠ pbkdf2_key K (list_byte_of_string pw) (map f (seq 0 (Z.to_nat n))) i l
         "whirlpool" →
     PBKDF2.compare K pw h = Resolved false).
Proof.
  intros HL Hw Hh En Ei El Ed.
  assert (∀ incoming,
            PBKDF2.compare K incoming h
            = Resolved (bool_decide
                (pbkdf2_key K (list_byte_of_string incoming)
                   (map f (seq 0 (Z.to_nat n))) i l "whirlpool"
                 = pbkdf2_key K (list_byte_of_string pw)
                     (map f (seq 0 (Z.to_nat n))) i l dn))) as Hc.
  { intros incoming.
    exact (pbkdf2_compare_hash_record K this pw opts f h n i l dn incoming
             HL Hw Hh En Ei El Ed). }
  split; [|split].
  - apply pbkdf2_hash_resolved in Hh
      as (f' & n' & i' & l' & dn' & [= <-] & En' & Hn & Ei' & Hi & El' & Hl
          & Ed' & Hk & ->).
    unfold PBKDF2.compare_call.
    rewrite decode_layout by (rewrite ?stream_length; lia).
    cbn [mbind throw_bind]. do 2 eexists. split; reflexivity.
  - exact Hc.
  - intros Hne. rewrite Hc.
    rewrite bool_decide_eq_false_2; [reflexivity|]. congruence.
Qed.

Lemma pbkdf2_compare_ignores_record_digest_witness :
  ∃ h, PBKDF2.hash Sample.kdf
         (PBKDF2.constructor (VObject {[ "digest" := PStr "sha512" ]}))
         "secret" (VPrim PUndefined) (Sample.counting 3) = Resolved h
       ∧ (∃ d args, PBKDF2.compare_call "secret" h = inr (d, args)
                    ∧ arg args 4 = VPrim (PStr "whirlpool"))
       ∧ PBKDF2.compare Sample.kdf "secret" h = Resolved false.
Proof.
  destruct (PBKDF2.hash Sample.kdf
              (PBKDF2.constructor (VObject {[ "digest" := PStr "sha512" ]}))
              "secret" (VPrim PUndefined) (Sample.counting 3))
    as [|h|e|e] eqn:E;
    [vm_compute in E; discriminate | | vm_compute in E; discriminate ..].
  exists h. split; [reflexivity|].
  destruct (pbkdf2_compare_ignores_record_digest Sample.kdf
              (PBKDF2.constructor (VObject {[ "digest" := PStr "sha512" ]}))
              "secret" (VPrim PUndefined)
              (λ i, Buffer.byte_of_Z (3 + Z.of_nat i)) h 16 777777 32 "sha512"
              sample_kdf_lengths eq_refl E eq_refl eq_refl eq_refl eq_refl)
    as (Hcall & _ & Hfalse).
  split; [exact Hcall|]. apply Hfalse. vm_compute. discriminate.
Defined.

(** C9. For every well-formed record, with an iteration count and a key
    length that the derivation accepts, and every incoming password whose
    re-derived key differs from the stored one, [compare] of the PBKDF2
    processor fulfils its promise with [false]: the mismatch is neither a
    rejection nor a crash. *)
Theorem pbkdf2_mismatch_resolves_false K incoming (S Kd : list byte) C :
  Z.of_nat (length S) < 2 ^ 32 →
  1 <= C <= 2147483647 →
  Z.of_nat (length Kd) <= 2147483647 →
  digest_known K "whirlpool" = true →
  pbkdf2_key K (list_byte_of_string incoming) S C (Z.of_nat (length Kd))
    "whirlpool" ≠ Kd →
  PBKDF2.compare K incoming (Codec.encoded_record S C Kd) = Resolved false.
Proof.
  intros HS HC HK Hw Hne.
  rewrite pbkdf2_compare_record; try assumption.
  - now rewrite bool_decide_eq_false_2.
  - destruct Kd as [|b Kd].
    + now apply empty_key_error_nonempty.
    + apply empty_key_error_positive. cbn [length]. lia.
Qed.

Lemma pbkdf2_mismatch_resolves_false_witness :
  PBKDF2.compare Sample.kdf "guess"
    (Codec.encoded_record ["161"; "162"]%byte 1000
       ["177"; "178"; "179"]%byte)
  = Resolved false.
Proof.
  apply (pbkdf2_mismatch_resolves_false Sample.kdf "guess"
           ["161"; "162"]%byte ["177"; "178"; "179"]%byte 1000).
  - simpl. lia.
  - lia.
  - simpl. lia.
  - reflexivity.
  - vm_compute. discriminate.
Defined.

(** * Further properties of the processors *)

(** ** Helpers *)

Lemma to_hex_inj a b : Buffer.to_hex a = Buffer.to_hex b → a = b.
Proof.
  intros H. rewrite <- (from_hex_to_hex a), <- (from_hex_to_hex b).
  now rewrite H.
Qed.

Lemma latin1_length buf : String.length (Buffer.latin1 buf) = length buf.
Proof.
  unfold Buffer.latin1, string_of_list_byte.
  induction buf as [|b buf IH]; cbn; [|rewrite IH]; reflexivity.
Qed.

Lemma stream_prefix_eq (f g : nat → byte) n j :
  map f (seq 0 n) = map g (seq 0 n) → (j < n)%nat → f j = g j.
Proof.
  intros H Hj.
  assert (map f (seq 0 n) !! j = Some (f j)) as Hf
    by (rewrite list_lookup_fmap, lookup_seq_lt by lia; reflexivity).
  assert (map g (seq 0 n) !! j = Some (g j)) as Hg
    by (rewrite list_lookup_fmap, lookup_seq_lt by lia; reflexivity).
  rewrite H in Hf. congruence.
Qed.

Lemma encoded_record_length S C K :
  String.length (Codec.encoded_record S C K)
  = (2 * (8 + length S + length K))%nat.
Proof.
  unfold Codec.encoded_record. rewrite to_hex_length, !length_app.
  cbn [length Codec.uint32be]. lia.
Qed.

(** A record determines its salt, its cost value and its key. *)
Lemma encoded_record_inj S1 C1 K1 S2 C2 K2 :
  Z.of_nat (length S1) < 2 ^ 32 → 0 <= C1 < 2 ^ 32 →
  Z.of_nat (length S2) < 2 ^ 32 → 0 <= C2 < 2 ^ 32 →
  Codec.encoded_record S1 C1 K1 = Codec.encoded_record S2 C2 K2 →
  S1 = S2 ∧ C1 = C2 ∧ K1 = K2.
Proof.
  intros HS1 HC1 HS2 HC2 H.
  pose proof (decode_layout S1 C1 K1 HS1 HC1) as D1.
  pose proof (decode_layout S2 C2 K2 HS2 HC2) as D2.
  rewrite H in D1. rewrite D1 in D2. injection D2 as _ HS _ HC HK.
  apply latin1_inj in HK. auto.
Qed.

(** ** PBKDF2: what [hash] writes and how [compare] answers on it *)

Lemma pbkdf2_default_roundtrip_witness :
  ∃ h, PBKDF2.hash Sample.kdf (PBKDF2.constructor (VPrim PUndefined))
         "correct horse" (VPrim PUndefined) (Sample.counting 0) = Resolved h
       ∧ PBKDF2.compare Sample.kdf "correct horse" h = Resolved true.
Proof.
  apply (pbkdf2_default_roundtrip Sample.kdf "correct horse"
           (λ i, Buffer.byte_of_Z (0 + Z.of_nat i))).
  - exact sample_kdf_lengths.
  - reflexivity.
Defined.

(** X2. Whenever [hash] of the PBKDF2 processor fulfils its promise, the
    string is made of hexadecimal digit pairs, has
    [2 * (8 + saltBytes + hashBytes)] characters, and [compare] reads
    from it the configured salt length, iteration count and key length,
    a salt of [saltBytes] bytes and a key of [hashBytes] bytes. *)
Theorem pbkdf2_hash_record_fields K this pw opts entropy h :
  Kdf_lengths K →
  PBKDF2.hash K this pw opts entropy = Resolved h →
  ∃ d n i l,
    get (PBKDF2.temporalOptions this opts) "saltBytes" = PNum n
    ∧ get (PBKDF2.temporalOptions this opts) "iterations" = PNum i
    ∧ get (PBKDF2.temporalOptions this opts) "hashBytes" = PNum l
    ∧ Codec.decode h = inr d
    ∧ Codec.saltBytes d = n ∧ Codec.iterations d = i ∧ Codec.hashBytes d = l
    ∧ length (Codec.salt d) = Z.to_nat n
    ∧ String.length (Codec.hash d) = Z.to_nat l
    ∧ Buffer.is_hex h = true
    ∧ Z.of_nat (String.length h) = 2 * (8 + n + l).
Proof.
  intros [HL _] Hh.
  apply pbkdf2_hash_resolved in Hh
    as (f & n & i & l & dn & -> & En & Hn & Ei & Hi & El & Hl & Ed & Hk & ->).
  eexists _, n, i, l. split; [exact En|]. split; [exact Ei|].
  split; [exact El|].
  split; [apply decode_layout; rewrite ?stream_length; lia|].
  cbn [Codec.saltBytes Codec.iterations Codec.hashBytes Codec.salt Codec.hash].
  rewrite latin1_length, HL, stream_length, encoded_record_length.
  rewrite HL, stream_length.
  repeat split; try lia. apply is_hex_to_hex.
Qed.

Lemma pbkdf2_hash_record_fields_witness :
  ∃ h d, PBKDF2.hash Sample.kdf (PBKDF2.constructor (VPrim PUndefined))
           "correct horse" (VObject {[ "iterations" := PNum 1000 ]})
           (Sample.counting 7) = Resolved h
         ∧ Codec.decode h = inr d
         ∧ Codec.saltBytes d = 16 ∧ Codec.iterations d = 1000
         ∧ Codec.hashBytes d = 32
         ∧ Z.of_nat (String.length h) = 112.
Proof.
  destruct (PBKDF2.hash Sample.kdf (PBKDF2.constructor (VPrim PUndefined))
              "correct horse" (VObject {[ "iterations" := PNum 1000 ]})
              (Sample.counting 7)) as [|h|e|e] eqn:E;
    [vm_compute in E; discriminate | | vm_compute in E; discriminate ..].
  destruct (pbkdf2_hash_record_fields Sample.kdf _ _ _ _ h
              sample_kdf_lengths E)
    as (d & n & i & l & En & Ei & El & Hd & Hn & Hi & Hl & _ & _ & _ & Hlen).
  vm_compute in En. vm_compute in Ei. vm_compute in El.
  injection En as <-. injection Ei as <-. injection El as <-.
  exists h, d. auto 10.
Defined.

(** X3. On a record that [hash] made under the default digest,
    [compare] answers whether the key derived from the incoming password,
    with the salt, iteration count and key length of the record, equals
    the key derived from the hashed password: [true] exactly when the
    two keys agree, [false] otherwise, never a rejection. *)
Theorem pbkdf2_compare_decides_key_equality
    K this pw opts f h n i l incoming :
  Kdf_lengths K →
  PBKDF2.hash K this pw opts (crypto.EntropyStream f) = Resolved h →
  get (PBKDF2.temporalOptions this opts) "saltBytes" = PNum n →
  get (PBKDF2.temporalOptions this opts) "iterations" = PNum i →
  get (PBKDF2.temporalOptions this opts) "hashBytes" = PNum l →
  get (PBKDF2.temporalOptions this opts) "digest" = PStr "whirlpool" →
  PBKDF2.compare K incoming h
  = Resolved (bool_decide
      (pbkdf2_key K (list_byte_of_string incoming)
         (map f (seq 0 (Z.to_nat n))) i l "whirlpool"
       = pbkdf2_key K (list_byte_of_string pw)
           (map f (seq 0 (Z.to_nat n))) i l "whirlpool")).
Proof.
  intros HL Hh En Ei El Ed.
  apply (pbkdf2_compare_hash_record K this pw opts f h n i l "whirlpool");
    try assumption.
  apply pbkdf2_hash_resolved in Hh
    as (f' & n' & i' & l' & dn' & _ & _ & _ & _ & _ & _ & _ & Ed' & Hk & _).
  rewrite Ed in Ed'. now injection Ed' as <-.
Qed.

Lemma pbkdf2_compare_decides_key_equality_witness :
  ∃ h, PBKDF2.hash Sample.kdf (PBKDF2.constructor (VPrim PUndefined))
         "secret" (VPrim PUndefined) (Sample.counting 1) = Resolved h
       ∧ PBKDF2.compare Sample.kdf "another" h = Resolved false.
Proof.
  destruct (PBKDF2.hash Sample.kdf (PBKDF2.constructor (VPrim PUndefined))
              "secret" (VPrim PUndefined) (Sample.counting 1))
    as [|h|e|e] eqn:E;
    [vm_compute in E; discriminate | | vm_compute in E; discriminate ..].
  exists h. split; [reflexivity|].
  rewrite (pbkdf2_compare_decides_key_equality Sample.kdf _ "secret" _
             (λ i, Buffer.byte_of_Z (1 + Z.of_nat i)) h 16 777777 32
             "another" sample_kdf_lengths E);
    reflexivity.
Defined.

(** X4. Two calls of [hash] of the PBKDF2 processor with the same
    options that fulfil their promises, and whose generated salts differ
    in some byte, give different strings, whatever the passwords. *)
Theorem pbkdf2_fresh_salt_fresh_record
    K this pw1 pw2 opts f1 f2 h1 h2 n j :
  PBKDF2.hash K this pw1 opts (crypto.EntropyStream f1) = Resolved h1 →
  PBKDF2.hash K this pw2 opts (crypto.EntropyStream f2) = Resolved h2 →
  get (PBKDF2.temporalOptions this opts) "saltBytes" = PNum n →
  (j < Z.to_nat n)%nat → f1 j ≠ f2 j →
  h1 ≠ h2.
Proof.
  intros H1 H2 En Hj Hne.
  apply pbkdf2_hash_resolved in H1
    as (f1' & n1 & i1 & l1 & dn1 & [= <-] & En1 & Hn1 & _ & Hi1 & _ & _ & _
        & _ & ->).
  apply pbkdf2_hash_resolved in H2
    as (f2' & n2 & i2 & l2 & dn2 & [= <-] & En2 & Hn2 & _ & Hi2 & _ & _ & _
        & _ & ->).
  rewrite En in En1, En2. injection En1 as <-. injection En2 as <-.
  intros Heq.
  apply encoded_record_inj in Heq as (Hs & _ & _);
    rewrite ?stream_length; try lia.
  apply Hne. exact (stream_prefix_eq f1 f2 _ j Hs Hj).
Qed.

Lemma pbkdf2_fresh_salt_fresh_record_witness :
  ∃ h1 h2,
    PBKDF2.hash Sample.kdf (PBKDF2.constructor (VPrim PUndefined)) "secret"
      (VObject {[ "saltBytes" := PNum 2; "iterations" := PNum 9 ]})
      (Sample.counting 0) = Resolved h1
    ∧ PBKDF2.hash Sample.kdf (PBKDF2.constructor (VPrim PUndefined)) "secret"
        (VObject {[ "saltBytes" := PNum 2; "iterations" := PNum 9 ]})
        (Sample.counting 1) = Resolved h2
    ∧ h1 ≠ h2.
Proof.
  destruct (PBKDF2.hash Sample.kdf (PBKDF2.constructor (VPrim PUndefined))
              "secret"
              (VObject {[ "saltBytes" := PNum 2; "iterations" := PNum 9 ]})
              (Sample.counting 0)) as [|h1|e|e] eqn:E1;
    [vm_compute in E1; discriminate | | vm_compute in E1; discriminate ..].
  destruct (PBKDF2.hash Sample.kdf (PBKDF2.constructor (VPrim PUndefined))
              "secret"
              (VObject {[ "saltBytes" := PNum 2; "iterations" := PNum 9 ]})
              (Sample.counting 1)) as [|h2|e|e] eqn:E2;
    [vm_compute in E2; discriminate | | vm_compute in E2; discriminate ..].
  exists h1, h2. split; [reflexivity|]. split; [reflexivity|].
  apply (pbkdf2_fresh_salt_fresh_record Sample.kdf _ _ _ _ _ _ h1 h2 2
           0%nat E1 E2).
  - reflexivity.
  - vm_compute. lia.
  - vm_compute. discriminate.
Defined.

(** X5. When the generation of the salt fails in [hash] of the PBKDF2
    processor, by a throw of [crypto.randomBytes] or by an error passed
    to its callback, the promise is rejected with that error. The
    [catch] block does not return, so the derivation is still attempted
    with [salt] undefined; its own throw finds the promise settled, and
    no record is produced. *)
Theorem pbkdf2_hash_salt_failure_rejects K this pw opts entropy e :
  crypto.randomBytes entropy
    [VPrim (get (PBKDF2.temporalOptions this opts) "saltBytes"); VFunction]
  = crypto.Throws e
  ∨ crypto.randomBytes entropy
      [VPrim (get (PBKDF2.temporalOptions this opts) "saltBytes"); VFunction]
    = crypto.CallbackError e →
  PBKDF2.hash K this pw opts entropy = Rejected e.
Proof.
  intros H. unfold PBKDF2.hash.
  assert (∃ e', crypto.pbkdf2 K
            [VPrim (PStr pw); VPrim PUndefined;
             VPrim (get (PBKDF2.temporalOptions this opts) "iterations");
             VPrim (get (PBKDF2.temporalOptions this opts) "hashBytes");
             VPrim (get (PBKDF2.temporalOptions this opts) "digest");
             VFunction] = crypto.Throws e') as [e' He']
    by apply pbkdf2_undefined_salt.
  destruct H as [-> | ->]; rewrite He'; reflexivity.
Qed.

Lemma pbkdf2_hash_salt_failure_rejects_witness :
  PBKDF2.hash Sample.kdf (PBKDF2.constructor (VPrim PUndefined)) "secret"
    (VPrim PUndefined) (crypto.EntropyError (PlainError "no entropy"))
  = Rejected (PlainError "no entropy")
  ∧ PBKDF2.hash Sample.kdf (PBKDF2.constructor (VPrim PUndefined)) "secret"
      (VObject {[ "saltBytes" := PNum (-1) ]}) (Sample.counting 0)
    = Rejected (RangeError "ERR_OUT_OF_RANGE").
Proof.
  split.
  - apply (pbkdf2_hash_salt_failure_rejects Sample.kdf). right. reflexivity.
  - apply (pbkdf2_hash_salt_failure_rejects Sample.kdf). left.
    vm_compute. reflexivity.
Defined.

Lemma sample_lenient_lengths : Kdf_lengths Sample.lenient.
Proof.
  split; intros; cbn [pbkdf2_key scrypt_key Sample.lenient Sample.kdf];
    now rewrite length_map, length_seq.
Qed.

(** A derivation of zero bytes: an error in the callback where the
    platform refuses empty keys, the empty key elsewhere. *)
Lemma pbkdf2_zero_call K pw s i dn :
  Kdf_lengths K → 1 <= i <= 2147483647 → digest_known K dn = true →
  crypto.pbkdf2 K [VPrim (PStr pw); VBuffer s; VPrim (PNum i); VPrim (PNum 0);
                   VPrim (PStr dn); VFunction]
  = if empty_key_refused K
    then crypto.CallbackError (PlainError "ERR_CRYPTO_OPERATION_FAILED")
    else crypto.CallbackValue [].
Proof.
  intros [HL _] Hi Hk.
  pose proof (HL (list_byte_of_string pw) s i 0 dn) as Hlen.
  apply nil_length_inv in Hlen.
  unfold crypto.pbkdf2, crypto.pbkdf2_check, arg, crypto.validateInt32.
  cbn [lookup list_lookup default from_option id crypto.validateString
       crypto.getArrayBufferOrView mbind throw_bind].
  rewrite !validateInteger_num by lia.
  cbn [mbind throw_bind crypto.validateFunction]. rewrite Hk. cbv zeta.
  rewrite Hlen. unfold crypto.empty_key_error.
  destruct (empty_key_refused K); reflexivity.
Qed.

(** X6. [hashBytes] set to 0 asks the derivation for an empty key. On a
    platform that refuses empty keys, [hash] of the PBKDF2 processor
    produces no record: the derivation calls back with an error and the
    callback, which does not return after [reject], throws on
    [hash.length]; [compare] on a record with an empty key ends the same
    way for every password. On a platform that delivers empty keys,
    [hash] stores an empty key and [compare] on a record with an empty
    key answers [true] for every incoming password. *)
Theorem pbkdf2_zero_length_key K this pw opts f n i dn :
  Kdf_lengths K →
  digest_known K "whirlpool" = true →
  get (PBKDF2.temporalOptions this opts) "saltBytes" = PNum n →
  0 <= n <= 2147483647 →
  get (PBKDF2.temporalOptions this opts) "iterations" = PNum i →
  1 <= i <= 2147483647 →
  get (PBKDF2.temporalOptions this opts) "hashBytes" = PNum 0 →
  get (PBKDF2.temporalOptions this opts) "digest" = PStr dn →
  digest_known K dn = true →
  PBKDF2.hash K this pw opts (crypto.EntropyStream f)
  = (if empty_key_refused K
     then Crashed (TypeError "Cannot read properties of undefined")
     else Resolved (Codec.encoded_record (map f (seq 0 (Z.to_nat n))) i []))
  ∧ ∀ incoming,
      PBKDF2.compare K incoming
        (Codec.encoded_record (map f (seq 0 (Z.to_nat n))) i [])
      = if empty_key_refused K
        then Crashed (TypeError "Cannot read properties of undefined")
        else Resolved true.
Proof.
  intros HL Hw En Hn Ei Hi El Ed Hk. split.
  - unfold PBKDF2.hash.
    rewrite En, Ei, El, Ed, randomBytes_run, pbkdf2_zero_call by assumption.
    destruct (empty_key_refused K); [reflexivity|].
    rewrite combine_layout by (rewrite ?stream_length; lia). reflexivity.
  - intros incoming. unfold PBKDF2.compare, PBKDF2.compare_call.
    rewrite decode_layout by (rewrite ?stream_length; lia).
    cbn [mbind throw_bind]. rewrite pbkdf2_defaults_digest.
    cbn [Codec.salt Codec.iterations Codec.hashBytes Codec.hash length].
    rewrite pbkdf2_zero_call by assumption.
    destruct (empty_key_refused K); reflexivity.
Qed.

Lemma pbkdf2_zero_length_key_witness :
  (PBKDF2.hash Sample.kdf (PBKDF2.constructor (VPrim PUndefined)) "secret"
     (VObject {[ "hashBytes" := PNum 0; "saltBytes" := PNum 2;
                 "iterations" := PNum 9 ]})
     (Sample.counting 5)
   = Crashed (TypeError "Cannot read properties of undefined")
   ∧ ∀ incoming,
       PBKDF2.compare Sample.kdf incoming "00000002000000090506"
       = Crashed (TypeError "Cannot read properties of undefined"))
  ∧ (PBKDF2.hash Sample.lenient (PBKDF2.constructor (VPrim PUndefined))
       "secret"
       (VObject {[ "hashBytes" := PNum 0; "saltBytes" := PNum 2;
                   "iterations" := PNum 9 ]})
       (Sample.counting 5)
     = Resolved "00000002000000090506"
     ∧ ∀ incoming,
         PBKDF2.compare Sample.lenient incoming "00000002000000090506"
         = Resolved true).
Proof.
  split.
  - apply (pbkdf2_zero_length_key Sample.kdf
             (PBKDF2.constructor (VPrim PUndefined)) "secret"
             (VObject {[ "hashBytes" := PNum 0; "saltBytes" := PNum 2;
                         "iterations" := PNum 9 ]})
             (λ i, Buffer.byte_of_Z (5 + Z.of_nat i)) 2 9 "whirlpool");
      (exact sample_kdf_lengths || reflexivity || lia).
  - apply (pbkdf2_zero_length_key Sample.lenient
             (PBKDF2.constructor (VPrim PUndefined)) "secret"
             (VObject {[ "hashBytes" := PNum 0; "saltBytes" := PNum 2;
                         "iterations" := PNum 9 ]})
             (λ i, Buffer.byte_of_Z (5 + Z.of_nat i)) 2 9 "whirlpool");
      (exact sample_lenient_lengths || reflexivity || lia).
Defined.

(** X7. [compare] reads the stored string through [Buffer.from(stored,
    "hex")] only: characters appended to a record that do not start with
    a pair of hexadecimal digits (a single character, or a pair with an
    invalid digit) are ignored, and both processors end as they do on the
    record alone. *)
Theorem compare_drops_invalid_tail K incoming buf junk :
  Buffer.from_hex junk = [] →
  PBKDF2.compare K incoming (Buffer.to_hex buf +:+ junk)
  = PBKDF2.compare K incoming (Buffer.to_hex buf)
  ∧ Scrypt.compare K incoming (Buffer.to_hex buf +:+ junk)
    = Scrypt.compare K incoming (Buffer.to_hex buf).
Proof.
  intros H.
  unfold PBKDF2.compare, PBKDF2.compare_call, Scrypt.compare,
    Scrypt.compare_call, Codec.decode.
  rewrite from_hex_app, H, app_nil_r, from_hex_to_hex. split; reflexivity.
Qed.

Lemma compare_drops_invalid_tail_witness :
  PBKDF2.compare Sample.kdf "guess"
    (Buffer.to_hex ["000"; "000"; "000"; "001"; "000"; "000"; "000"; "007";
                    "171"; "205"]%byte +:+ "0g12")
  = PBKDF2.compare Sample.kdf "guess"
      (Buffer.to_hex ["000"; "000"; "000"; "001"; "000"; "000"; "000"; "007";
                      "171"; "205"]%byte)
  ∧ Scrypt.compare Sample.kdf "guess"
      (Buffer.to_hex ["000"; "000"; "000"; "001"; "000"; "000"; "000"; "007";
                      "171"; "205"]%byte +:+ "0g12")
    = Scrypt.compare Sample.kdf "guess"
        (Buffer.to_hex ["000"; "000"; "000"; "001"; "000"; "000"; "000";
                        "007"; "171"; "205"]%byte).
Proof.
  apply (compare_drops_invalid_tail Sample.kdf "guess"
           ["000"; "000"; "000"; "001"; "000"; "000"; "000"; "007";
            "171"; "205"]%byte "0g12").
  reflexivity.
Defined.

(** ** Reading a record and writing it again *)

Lemma byte_of_Z_mod z : Buffer.byte_of_Z (z mod 256) = Buffer.byte_of_Z z.
Proof. unfold Buffer.byte_of_Z. now rewrite Z.mod_mod by lia. Qed.

Lemma byte_of_Z_digit q b :
  Buffer.byte_of_Z (256 * q + Buffer.byte_to_Z b) = b.
Proof.
  rewrite <- byte_of_Z_mod.
  rewrite Z.add_comm, Z.mul_comm, Z.mod_add by lia.
  rewrite Z.mod_small by apply byte_to_Z_range.
  apply byte_of_to_Z.
Qed.

(** The four bytes of the number that four bytes read as. *)
Lemma uint32be_bytes a0 a1 a2 a3 :
  Codec.uint32be
    (Buffer.byte_to_Z a0 * 2 ^ 24 + Buffer.byte_to_Z a1 * 2 ^ 16
     + Buffer.byte_to_Z a2 * 2 ^ 8 + Buffer.byte_to_Z a3)
  = [a0; a1; a2; a3].
Proof.
  pose proof (byte_to_Z_range a0). pose proof (byte_to_Z_range a1).
  pose proof (byte_to_Z_range a2). pose proof (byte_to_Z_range a3).
  set (x0 := Buffer.byte_to_Z a0) in *. set (x1 := Buffer.byte_to_Z a1) in *.
  set (x2 := Buffer.byte_to_Z a2) in *. set (x3 := Buffer.byte_to_Z a3) in *.
  unfold Codec.uint32be.
  replace ((x0 * 2 ^ 24 + x1 * 2 ^ 16 + x2 * 2 ^ 8 + x3) / 2 ^ 24)
    with (256 * 0 + x0)
    by (apply (Z.div_unique_pos _ _ _ (x1 * 2 ^ 16 + x2 * 2 ^ 8 + x3)); lia).
  replace ((x0 * 2 ^ 24 + x1 * 2 ^ 16 + x2 * 2 ^ 8 + x3) / 2 ^ 16)
    with (256 * x0 + x1)
    by (apply (Z.div_unique_pos _ _ _ (x2 * 2 ^ 8 + x3)); lia).
  replace ((x0 * 2 ^ 24 + x1 * 2 ^ 16 + x2 * 2 ^ 8 + x3) / 2 ^ 8)
    with (256 * (256 * x0 + x1) + x2)
    by (apply (Z.div_unique_pos _ _ _ x3); lia).
  replace (x0 * 2 ^ 24 + x1 * 2 ^ 16 + x2 * 2 ^ 8 + x3)
    with (256 * (256 * (256 * x0 + x1) + x2) + x3) by lia.
  subst x0 x1 x2 x3. now rewrite !byte_of_Z_digit.
Qed.

(** X8. For every stored string that [compare] can read and whose
    recorded salt length fits in the decoded buffer, the salt read has
    the recorded length, salt length, 8 and key length add up to the
    length of the buffer, and building a record from the salt, the cost
    value and the key read gives the hexadecimal rendering of the decoded
    buffer: the stored string itself when it came from [hash]. *)
Theorem decode_then_combine stored d :
  Codec.decode stored = inr d →
  8 + Codec.saltBytes d <= Z.of_nat (length (Buffer.from_hex stored)) →
  Z.of_nat (length (Codec.salt d)) = Codec.saltBytes d
  ∧ Z.of_nat (String.length (Codec.hash d)) = Codec.hashBytes d
  ∧ Codec.saltBytes d + 8 + Codec.hashBytes d
    = Z.of_nat (length (Buffer.from_hex stored))
  ∧ Codec.combine (Codec.salt d) (Buffer.from_binary (Codec.hash d))
      (PNum (Codec.iterations d))
    = inr (Buffer.to_hex (Buffer.from_hex stored)).
Proof.
  unfold Codec.decode.
  destruct (Buffer.readUInt32BE (Buffer.from_hex stored) 0) as [e|sl] eqn:E0;
    [discriminate|].
  cbn [mbind throw_bind].
  destruct (Buffer.readUInt32BE (Buffer.from_hex stored) 4) as [e|it] eqn:E4;
    [discriminate|].
  cbn [mbind throw_bind]. intros [= <-].
  cbn [Codec.saltBytes Codec.salt Codec.hashBytes Codec.iterations Codec.hash].
  intros Hfit.
  pose proof (readUInt32BE_range _ _ _ E0) as [Hsl _].
  pose proof (readUInt32BE_range _ _ _ E4) as [Hit Hlen].
  destruct (Buffer.from_hex stored)
    as [|a0 [|a1 [|a2 [|a3 [|b0 [|b1 [|b2 [|b3 rest]]]]]]]];
    cbn [length] in Hlen; try lia.
  rewrite readUInt32BE_0 in E0. rewrite readUInt32BE_4 in E4.
  injection E0 as E0. injection E4 as E4.
  cbn [length] in Hfit |- *.
  unfold Buffer.slice, Buffer.toString_binary.
  replace (Z.to_nat (sl + 8)) with (8 + Z.to_nat sl)%nat by lia.
  replace (8 + Z.to_nat sl - 8)%nat with (Z.to_nat sl) by lia.
  rewrite <- drop_drop. cbn [drop]. rewrite ?drop_0.
  rewrite from_binary_latin1, latin1_length.
  rewrite length_take, length_drop.
  split; [lia|]. split; [lia|]. split; [lia|].
  rewrite combine_layout by (rewrite ?length_take; lia).
  unfold Codec.encoded_record.
  rewrite length_take, Nat.min_l, Z2Nat.id by lia.
  rewrite <- E0 at 1. rewrite <- E4 at 1. rewrite !uint32be_bytes.
  rewrite take_drop. reflexivity.
Qed.

Lemma decode_then_combine_witness :
  ∃ d, Codec.decode "00000002000003E8a1a2B1b2b3zz" = inr d
       ∧ Z.of_nat (length (Codec.salt d)) = 2
       ∧ Codec.hashBytes d = 3
       ∧ Codec.combine (Codec.salt d) (Buffer.from_binary (Codec.hash d))
           (PNum (Codec.iterations d))
         = inr "00000002000003e8a1a2b1b2b3".
Proof.
  destruct (Codec.decode "00000002000003E8a1a2B1b2b3zz") as [e|d] eqn:E;
    [vm_compute in E; discriminate|].
  destruct (decode_then_combine "00000002000003E8a1a2B1b2b3zz" d E)
    as (Hs & Hh & Hsum & Hc).
  - assert (Codec.saltBytes d = 2) as ->
      by (vm_compute in E; injection E as <-; reflexivity).
    vm_compute. discriminate.
  - assert (Codec.saltBytes d = 2) as Hsb
      by (vm_compute in E; injection E as <-; reflexivity).
    exists d. split; [reflexivity|]. rewrite Hsb in Hs, Hsum.
    split; [exact Hs|]. split.
    + change (Z.of_nat (length (Buffer.from_hex
                "00000002000003E8a1a2B1b2b3zz"))) with 13 in Hsum. lia.
    + exact Hc.
Defined.

(** ** The scrypt processor *)
Section ScryptRun.

Import crypto.

Lemma scrypt_option_long o short long dflt v :
  get o short = PUndefined → get o long = PNum v → 0 < v <= 4294967295 →
  scrypt_option o short long dflt = inr v.
Proof.
  intros Hs Hl Hv. unfold scrypt_option, validateUint32. rewrite Hs, Hl.
  rewrite validateInteger_num by lia. cbn [mbind throw_bind].
  destruct (Z.eqb_spec v 0); [lia|reflexivity].
Qed.

(** The derivation call of [hash] with numeric options. *)
Lemma scrypt_hash_call_run K t pw salt l c b p :
  get t "keyLength" = PNum l → 0 <= l <= 2147483647 →
  get t "cost" = PNum c → 0 < c <= 4294967295 →
  get t "blockSize" = PNum b → 0 < b <= 4294967295 →
  get t "parallelization" = PNum p → 0 < p <= 4294967295 →
  scrypt K (Scrypt.hash_call t pw salt)
  = if scrypt_params_ok K c b p (32 * 1024 * 1024)
    then CallbackValue (scrypt_key K (list_byte_of_string pw) salt l c b p)
    else Throws (RangeError "ERR_CRYPTO_INVALID_SCRYPT_PARAMS").
Proof.
  intros El Hl Ec Hc Eb Hb Ep Hp.
  unfold Scrypt.hash_call. rewrite El, Ec, Eb, Ep.
  unfold scrypt, arg, validateInt32.
  cbn [lookup list_lookup default from_option id getArrayBufferOrView
       mbind throw_bind scrypt_params].
  rewrite validateInteger_num by lia. cbn [mbind throw_bind].
  rewrite (scrypt_option_long _ "N" "cost" _ c) by (reflexivity || lia).
  cbn [mbind throw_bind].
  rewrite (scrypt_option_long _ "r" "blockSize" _ b) by (reflexivity || lia).
  cbn [mbind throw_bind].
  rewrite (scrypt_option_long _ "p" "parallelization" _ p)
    by (reflexivity || lia).
  cbn [mbind throw_bind].
  change (scrypt_maxmem _) with (inr (B := Z) (A := Error) (32 * 1024 * 1024)).
  cbn [mbind throw_bind validateFunction crypto.N crypto.r crypto.p
       crypto.maxmem].
  destruct (scrypt_params_ok K c b p (32 * 1024 * 1024)); reflexivity.
Qed.

End ScryptRun.

(** X9. [hash] of the scrypt processor with numeric options: the key is
    derived with the configured key length, cost, block size and
    parallelization, and the record holds the generated salt, the key
    length in the cost slot and that key. The parameter set is checked
    against the built-in memory bound of [crypto.scrypt], 32 MiB, not
    against the configured [maxmem]: when the platform refuses the set
    under that bound, the promise is rejected. *)
Theorem scrypt_hash_with_numbers K this pw opts f n l c b p :
  get (Scrypt.temporalOptions this opts) "saltBytes" = PNum n →
  0 <= n <= 2147483647 →
  get (Scrypt.temporalOptions this opts) "keyLength" = PNum l →
  0 <= l <= 2147483647 →
  get (Scrypt.temporalOptions this opts) "cost" = PNum c →
  0 < c <= 4294967295 →
  get (Scrypt.temporalOptions this opts) "blockSize" = PNum b →
  0 < b <= 4294967295 →
  get (Scrypt.temporalOptions this opts) "parallelization" = PNum p →
  0 < p <= 4294967295 →
  Scrypt.hash K this pw opts (crypto.EntropyStream f)
  = if scrypt_params_ok K c b p (32 * 1024 * 1024)
    then Resolved
           (Codec.encoded_record (map f (seq 0 (Z.to_nat n))) l
              (scrypt_key K (list_byte_of_string pw)
                 (map f (seq 0 (Z.to_nat n))) l c b p))
    else Rejected (RangeError "ERR_CRYPTO_INVALID_SCRYPT_PARAMS").
Proof.
  intros En Hn El Hl Ec Hc Eb Hb Ep Hp. unfold Scrypt.hash.
  rewrite En, randomBytes_run by lia.
  rewrite (scrypt_hash_call_run K _ pw _ l c b p) by assumption.
  destruct (scrypt_params_ok K c b p (32 * 1024 * 1024)); [|reflexivity].
  rewrite El, combine_layout by (rewrite ?stream_length; lia).
  reflexivity.
Qed.

Lemma scrypt_hash_with_numbers_witness :
  (∃ h, Scrypt.hash Sample.kdf (Scrypt.constructor (VPrim PUndefined))
          "secret" (VPrim PUndefined) (Sample.counting 0) = Resolved h
        ∧ String.length h = 176%nat)
  ∧ Scrypt.hash Sample.kdf
      (Scrypt.constructor
         (VObject {[ "cost" := PNum 65536;
                     "maxmem" := PNum (128 * 1024 * 1024) ]}))
      "secret" (VPrim PUndefined) (Sample.counting 0)
    = Rejected (RangeError "ERR_CRYPTO_INVALID_SCRYPT_PARAMS").
Proof.
  split.
  - eexists. split.
    + rewrite (scrypt_hash_with_numbers Sample.kdf _ "secret" _
                 (λ i, Buffer.byte_of_Z (0 + Z.of_nat i)) 16 64 16384 8 1);
        try reflexivity; lia.
    + rewrite encoded_record_length. reflexivity.
  - rewrite (scrypt_hash_with_numbers Sample.kdf _ "secret" _
               (λ i, Buffer.byte_of_Z (0 + Z.of_nat i)) 16 64 65536 8 1);
      try reflexivity; lia.
Defined.

(** X10. [compare] of the scrypt processor rejects on every input, and
    the error does not depend on the incoming password or on the
    derivation primitives. It is the error of the buffer read when the
    stored string decodes to fewer than 8 bytes: out of bounds below 4
    bytes, where no read is possible, out of range from 4 to 7 bytes,
    where the second read fails. With 8 bytes or more it is a range
    error when the value at offset 4 is not an int32, and otherwise the
    type error that [crypto.scrypt] raises for its callback. *)
Theorem scrypt_compare_error K incoming stored :
  Scrypt.compare K incoming stored
  = Rejected
      match Codec.decode stored with
      | inl e => e
      | inr d =>
          if Codec.iterations d <=? 2147483647
          then TypeError "ERR_INVALID_ARG_TYPE"
          else RangeError "ERR_OUT_OF_RANGE"
      end
  ∧ ((length (Buffer.from_hex stored) < 4)%nat →
     Scrypt.compare K incoming stored
     = Rejected (RangeError "ERR_BUFFER_OUT_OF_BOUNDS"))
  ∧ ((4 <= length (Buffer.from_hex stored) < 8)%nat →
     Scrypt.compare K incoming stored
     = Rejected (RangeError "ERR_OUT_OF_RANGE"))
  ∧ ((8 <= length (Buffer.from_hex stored))%nat →
     ∃ d, Codec.decode stored = inr d).
Proof.
  assert (Scrypt.compare K incoming stored
          = Rejected
              match Codec.decode stored with
              | inl e => e
              | inr d =>
                  if Codec.iterations d <=? 2147483647
                  then TypeError "ERR_INVALID_ARG_TYPE"
                  else RangeError "ERR_OUT_OF_RANGE"
              end) as Hgen.
  { unfold Scrypt.compare, Scrypt.compare_call.
    destruct (Codec.decode stored) as [e|d] eqn:Ed; [reflexivity|].
    cbn [mbind throw_bind]. rewrite scrypt_defaults_digest.
    assert (0 <= Codec.iterations d) as Hpos.
    { revert Ed. unfold Codec.decode.
      destruct (Buffer.readUInt32BE _ 0); [discriminate|].
      cbn [mbind throw_bind].
      destruct (Buffer.readUInt32BE _ 4) as [e|it] eqn:E4; [discriminate|].
      cbn [mbind throw_bind]. intros [= <-]. cbn [Codec.iterations].
      apply readUInt32BE_range in E4. lia. }
    destruct (Z.leb_spec (Codec.iterations d) 2147483647) as [Hle|Hgt].
    - now rewrite scrypt_number_as_callback_type by lia.
    - unfold crypto.scrypt, arg, crypto.validateInt32, crypto.validateInteger.
      cbn [lookup list_lookup default from_option id
           crypto.getArrayBufferOrView mbind throw_bind].
      destruct (Z.leb_spec 0 (Codec.iterations d)); [|lia].
      destruct (Z.leb_spec (Codec.iterations d) 2147483647); [lia|].
      reflexivity. }
  split; [exact Hgen|]. split; [|split].
  - intros Hs. rewrite Hgen, decode_short by lia.
    unfold Buffer.boundsError.
    destruct (Nat.ltb_spec (length (Buffer.from_hex stored)) 4);
      [reflexivity|lia].
  - intros Hs. rewrite Hgen, decode_short by lia.
    unfold Buffer.boundsError.
    destruct (Nat.ltb_spec (length (Buffer.from_hex stored)) 4);
      [lia|reflexivity].
  - intros Hl. destruct (decode_long stored Hl) as (d & Hd & _). eauto.
Qed.

(** ** The factory *)

Lemma exports_several_witness :
  Factory.exports [("pbkdf2", VPrim (PBool true)); ("md5", VPrim (PBool false));
                   ("scrypt", VPrim (PStr "yes"))]
  = inl (PlainError
           "UserCredentialProcessor: More than one algorithm enabled. ").
Proof.
  apply (exports_several
           [("pbkdf2", VPrim (PBool true)); ("md5", VPrim (PBool false));
            ("scrypt", VPrim (PStr "yes"))]).
  vm_compute. lia.
Defined.

Lemma exports_unknown_witness :
  Factory.exports [("pbkdf2", VPrim (PNum 0)); ("SHA256", VPrim (PNum 1))]
  = inl (PlainError "UserCredentialProcessor: Unknown algorithm").
Proof.
  apply (exports_unknown
           [("pbkdf2", VPrim (PNum 0)); ("SHA256", VPrim (PNum 1))] "SHA256").
  - reflexivity.
  - intros b. destruct b; vm_compute; discriminate.
Defined.

Lemma select_inv name o :
  Factory.select name = inr o →
  ∃ b, name = Factory.label b ∧ o = Factory.Class b.
Proof.
  unfold Factory.select.
  destruct (String.eqb_spec name "argon2") as [->|_];
    [intros [= <-]; exists Factory.Argon2Processor; auto|].
  destruct (String.eqb_spec name "bcrypt") as [->|_];
    [intros [= <-]; exists Factory.BcryptProcessor; auto|].
  destruct (String.eqb_spec name "pbkdf2") as [->|_];
    [intros [= <-]; exists Factory.PBKDF2Processor; auto|].
  destruct (String.eqb_spec name "scrypt") as [->|_];
    [intros [= <-]; exists Factory.ScryptProcessor; auto|].
  discriminate.
Qed.

(** X13. The factory returns a value exactly when one key of the
    configuration is enabled and its name, in lower case, is one of the
    four labels; the value is then the class of that backend. In every
    other case it throws. *)
Theorem exports_returns_iff hashingAlgorithm o :
  Factory.exports hashingAlgorithm = inr o
  ↔ ∃ name b, Factory.enabled hashingAlgorithm = [name]
              ∧ Factory.toLowerCase name = Factory.label b
              ∧ o = Factory.Class b.
Proof.
  split.
  - unfold Factory.exports.
    destruct (Nat.ltb_spec 1 (length (Factory.enabled hashingAlgorithm)))
      as [|Hlen]; [discriminate|].
    destruct (Factory.enabled hashingAlgorithm) as [|name [|name' rest]];
      cbn [length] in Hlen; [discriminate | | lia].
    cbn [lookup list_lookup]. intros H.
    apply select_inv in H as (b & Hb & ->). eauto.
  - intros (name & b & He & Hn & ->).
    unfold Factory.exports. rewrite He. cbn [length lookup list_lookup].
    rewrite Hn. destruct b; reflexivity.
Qed.

(** ** The bcrypt processor *)

(** X14. The number of rounds that [hash] of the bcrypt processor hands
    to the library: the [saltRounds] of the per-call object when that key
    is present in it; otherwise the [saltRounds] of the object given to
    the constructor when the key is present there; otherwise 10. Unlike
    the KDF processors, a per-call object without the key leaves the
    constructor-time value in force. *)
Theorem bcrypt_hash_rounds L (ctor percall : gmap string prim) pw :
  Bcrypt.hash L (Bcrypt.constructor (VObject ctor)) pw (VObject percall)
  = Bcrypt.bcrypt_hash L pw
      match percall !! "saltRounds" with
      | Some v => v
      | None =>
          match ctor !! "saltRounds" with
          | Some v => v
          | None => PNum 10
          end
      end.
Proof.
  unfold Bcrypt.hash, Bcrypt.constructor, Bcrypt.with_saltRounds, get.
  destruct (percall !! "saltRounds") as [v|] eqn:Ep.
  - rewrite decide_True by eauto. now rewrite Ep.
  - rewrite decide_False by (intros [? ?]; discriminate).
    destruct (ctor !! "saltRounds") as [w|] eqn:Ec.
    + rewrite decide_True by eauto. cbn [Bcrypt.options]. now rewrite Ec.
    + rewrite decide_False by (intros [? ?]; discriminate). reflexivity.
Qed.

(** ** From the factory to a verified password *)

(** X15. For every configuration whose only enabled key is "pbkdf2" in
    any letter case: the class the factory returns, constructed without
    options, gives an instance whose [hash] fulfils its promise for every
    password and every generated salt, and whose [compare], called with
    the same password and the resulting string, answers [true]. *)
Theorem factory_pbkdf2_roundtrip L hashingAlgorithm name pw f :
  Factory.enabled hashingAlgorithm = [name] →
  Factory.toLowerCase name = "pbkdf2" →
  Kdf_lengths (Call.kdf L) →
  digest_known (Call.kdf L) "whirlpool" = true →
  ∃ inst h,
    Call.make hashingAlgorithm (VPrim PUndefined) = inr inst
    ∧ Call.hash L inst pw (VPrim PUndefined) (crypto.EntropyStream f)
      = inr (Resolved h)
    ∧ Call.compare L inst pw h = inr (Resolved true).
Proof.
  intros He Hn HL Hw.
  assert (PBKDF2.hash (Call.kdf L) (PBKDF2.constructor (VPrim PUndefined)) pw
            (VPrim PUndefined) (crypto.EntropyStream f)
          = Resolved
              (Codec.encoded_record (map f (seq 0 (Z.to_nat 16))) 777777
                 (pbkdf2_key (Call.kdf L) (list_byte_of_string pw)
                    (map f (seq 0 (Z.to_nat 16))) 777777 32 "whirlpool")))
    as Hh.
  { apply pbkdf2_hash_run;
      rewrite ?pbkdf2_default_instance;
      (reflexivity || lia || assumption
       || (apply empty_key_error_positive; lia)). }
  eexists (Factory.Instance Factory.PBKDF2Processor (VPrim PUndefined)), _.
  split; [|split].
  - unfold Call.make. rewrite (exports_single _ _ He), Hn. reflexivity.
  - cbn [Call.hash]. rewrite Hh. reflexivity.
  - cbn [Call.compare]. f_equal.
    eapply pbkdf2_compare_of_hash; [exact HL | | exact Hh].
    rewrite pbkdf2_default_instance. reflexivity.
Qed.

Lemma factory_pbkdf2_roundtrip_witness :
  ∃ inst h,
    Call.make [("bcrypt", VPrim (PBool false)); ("PBKDF2", VPrim (PBool true))]
      (VPrim PUndefined) = inr inst
    ∧ Call.hash SampleLibs.libraries inst "correct horse" (VPrim PUndefined)
        (Sample.counting 0) = inr (Resolved h)
    ∧ Call.compare SampleLibs.libraries inst "correct horse" h
      = inr (Resolved true).
Proof.
  apply (factory_pbkdf2_roundtrip SampleLibs.libraries
           [("bcrypt", VPrim (PBool false)); ("PBKDF2", VPrim (PBool true))]
           "PBKDF2" "correct horse"
           (λ i, Buffer.byte_of_Z (0 + Z.of_nat i))).
  - reflexivity.
  - reflexivity.
  - exact sample_kdf_lengths.
  - reflexivity.
Defined.
